(** * go-storage: a storage abstraction over the local file system, AWS S3
      and Alibaba OSS.

    Shallow embedding of the Go sources: the [Storage] contract, the S3
    backend ([storage_s3.go]), the Alibaba OSS backend and the local
    backend, with the properties of the path normaliser, the multipart
    upload engine and the dual-tree visibility model of the local
    backend. *)

From Stdlib Require Import ZArith Lia Ascii Strings.Byte DecimalString.
From stdpp Require Import gmap strings list.

(** ** Go's [path], [path/filepath] and [runtime.GOOS]

    The packages are Go's standard library; they are modelled on path
    elements (the pieces between slashes), following the four rewriting
    rules documented for [path.Clean]. Windows volume names are not
    modelled. *)

Inductive GOOS := linux | darwin | windows.

Module GoPath.

(** [filepath.Separator] *)
Definition Separator (os : GOOS) : ascii :=
  match os with
  | windows => "\"%char
  | _ => "/"%char
  end.

(** [strings.ReplaceAll(s, string(old), string(new))] for one-byte
    patterns. *)
Fixpoint replace_char (old new : ascii) (s : string) : string :=
  match s with
  | EmptyString => EmptyString
  | String c s' =>
      String (if Ascii.eqb c old then new else c) (replace_char old new s')
  end.

(** [filepath.ToSlash] *)
Definition ToSlash (os : GOOS) (path : string) : string :=
  if Ascii.eqb (Separator os) "/"%char then path
  else replace_char (Separator os) "/"%char path.

(** [filepath.FromSlash] *)
Definition FromSlash (os : GOOS) (path : string) : string :=
  if Ascii.eqb (Separator os) "/"%char then path
  else replace_char "/"%char (Separator os) path.

(** [strings.Split(s, "/")]: the elements of a path; never empty. *)
Fixpoint split_slash (s : string) : list string :=
  match s with
  | EmptyString => [EmptyString]
  | String c s' =>
      if Ascii.eqb c "/"%char then EmptyString :: split_slash s'
      else match split_slash s' with
           | x :: r => String c x :: r
           | [] => [String c EmptyString]
           end
  end.

(** [strings.Join(elems, "/")] *)
Fixpoint join_slash (l : list string) : string :=
  match l with
  | [] => ""
  | [x] => x
  | x :: r => x +:+ "/" +:+ join_slash r
  end.

Definition is_rooted (path : string) : bool :=
  match path with
  | String c _ => Ascii.eqb c "/"%char
  | EmptyString => false
  end.

(** One round of the scanning loop of [path.Clean]. [out] holds the
    elements written so far, the last one first. *)
Definition clean_step (rooted : bool) (out : list string) (elem : string)
  : list string :=
  if String.eqb elem "" then out            (* empty path element *)
  else if String.eqb elem "." then out      (* . element *)
  else if String.eqb elem ".." then
    match out with
    | top :: rest =>
        if String.eqb top ".." then elem :: out   (* cannot backtrack *)
        else rest                                   (* can backtrack *)
    | [] => if rooted then [] else [elem]
    end
  else elem :: out.                          (* real path element *)

Definition clean_elems (rooted : bool) (elems : list string) : list string :=
  rev (fold_left (clean_step rooted) elems []).

(** [path.Clean] *)
Definition Clean (path : string) : string :=
  if String.eqb path "" then "."
  else
    let rooted := is_rooted path in
    let body := join_slash (clean_elems rooted (split_slash path)) in
    if rooted then "/" +:+ body
    else if String.eqb body "" then "." else body.

(** [path.Join]; [filepath.Join] on a slash-separated platform. Empty
    elements before the first non-empty one are ignored. *)
Fixpoint Join (elem : list string) : string :=
  match elem with
  | [] => ""
  | e :: rest =>
      if String.eqb e "" then Join rest
      else Clean (join_slash elem)
  end.

(** [filepath.Clean]: clean in slash form, then go back to the
    platform's separator. *)
Definition filepath_Clean (os : GOOS) (path : string) : string :=
  FromSlash os (Clean (ToSlash os path)).

(** [filepath.Join] *)
Definition filepath_Join (os : GOOS) (elem : list string) : string :=
  FromSlash os (Join (map (ToSlash os) elem)).

(** [filepath.Dir]: [Clean] of the path up to and including its last
    separator. *)
Definition filepath_Dir (os : GOOS) (path : string) : string :=
  match split_slash (ToSlash os path) with
  | [] | [_] => FromSlash os (Clean "")
  | elems => FromSlash os (Clean (join_slash (removelast elems ++ [""])))
  end.

(** [filepath.Abs], with the working directory [wd] that [os.Getwd]
    gives. *)
Definition filepath_Abs (os : GOOS) (wd path : string) : string :=
  if is_rooted (ToSlash os path) then filepath_Clean os path
  else filepath_Join os [wd; path].

End GoPath.

Import GoPath.


(** ** Go values shared by the backends *)

(** Go's [error] values, as far as the backends tell them apart. *)
Inductive error :=
| io_EOF                                       (* io.EOF *)
| fmt_Errorf (msg : string)                    (* fmt.Errorf(...) *)
| os_PathError (op path errno : string)        (* *os.PathError *)
| os_LinkError (op old new errno : string)     (* *os.LinkError *)
| url_Error (op url : string)                  (* *url.Error *)
| reader_error (msg : string)                  (* a failing io.Reader *)
| sdk_error (code : string).                   (* an error of a backend SDK *)

#[global] Instance error_eq_dec : EqDecision error.
Proof. solve_decision. Defined.

(** [err.Error()] *)
Definition error_string (e : error) : string :=
  match e with
  | io_EOF => "EOF"
  | fmt_Errorf msg => msg
  | os_PathError op path errno => op +:+ " " +:+ path +:+ ": " +:+ errno
  | os_LinkError op old new errno =>
      op +:+ " " +:+ old +:+ " " +:+ new +:+ ": " +:+ errno
  | url_Error op url => op +:+ " " +:+ url
  | reader_error msg => msg
  | sdk_error code => code
  end.

(** An [io.Reader], given by what its successive [Read] calls return: the
    bytes read and the error. Once the list is used up, [Read] returns
    [0, io.EOF]. *)
Definition Reader := list (list byte * option error).

(** [bytes.NewReader(data)] read through a buffer of [size] bytes:
    [Read] hands out the next [size] bytes with a nil error, and
    [0, io.EOF] at the end. [fuel] bounds the number of reads. *)
Fixpoint bytesReader_reads (size fuel : nat) (data : list byte) : Reader :=
  match fuel with
  | O => []
  | S fuel' =>
      match data with
      | [] => [([], Some io_EOF)]
      | _ => (take size data, None) :: bytesReader_reads size fuel' (drop size data)
      end
  end.

Definition bytesReader (size : nat) (data : list byte) : Reader :=
  bytesReader_reads size (S (length data)) data.

(** *** The contract: visibility and resize directive *)

Definition ObjectVisibility := string.

Definition ObjectPrivate : ObjectVisibility := "private".
Definition ObjectPublicReadWrite : ObjectVisibility := "public-read-write".
Definition ObjectPublicRead : ObjectVisibility := "public-read".

Record StorageResize := { MaxHeight : option Z }.

(** [fmt.Sprintf("%d", n)] *)
Definition fmt_d (n : Z) : string :=
  DecimalString.NilZero.string_of_int (Z.to_int n).

Definition ConvertForOss (s : option StorageResize) : string :=
  match s with
  | None => ""
  | Some r =>
      let resizeAction := "lfit" in
      let result := "image/resize,m_" +:+ resizeAction in
      match MaxHeight r with
      | Some h => result +:+ ",h_" +:+ fmt_d h
      | None => result
      end
  end.

(** ** The file system under the local backend

    Go's [os] package over a flat name space: a name is the absolute,
    cleaned path of an entry, which is a regular file (a hard link to an
    inode) or a symbolic link. Directories are implicit: a directory is
    there as soon as something is created below it. *)

Inductive dirent :=
| Reg (ino : nat)            (* hard link to an inode *)
| Lnk (target : string).     (* symbolic link *)

#[global] Instance dirent_eq_dec : EqDecision dirent.
Proof. solve_decision. Defined.

Record FS := mkFS {
  names : gmap string dirent;
  inodes : gmap nat (list byte);
  next_ino : nat
}.

Definition empty_fs : FS := mkFS ∅ ∅ 0.

(** [net/url.URL], the fields the backends use. *)
Record URL := mkURL {
  Scheme : string;
  Host : string;
  Path : string;
  RawQuery : string
}.

(** The process environment: platform, working directory and the
    [net/url] functions, which are not modelled. *)
Record Env := mkEnv {
  goos : GOOS;
  wd : string;
  url_Parse : string -> URL + error;
  URL_String : URL -> string
}.

(** Go code with side effects runs in a state monad; for the local
    backend the state is the file system. *)
Definition State (S A : Type) : Type := S -> A * S.

#[global] Instance State_ret {S} : MRet (State S) := fun A a st => (a, st).
#[global] Instance State_bind {S} : MBind (State S) :=
  fun A B k m st => let (a, st') := m st in k a st'.

Abbreviation M := (State FS).

Module OS.

Definition ENOENT := "no such file or directory".
Definition EEXIST := "file exists".
Definition ELOOP := "too many levels of symbolic links".

(** The name the kernel resolves a path to, symbolic links aside. *)
Definition key (env : Env) (path : string) : string :=
  filepath_Abs (goos env) (wd env) path.

(** Follow symbolic links at the last path element, at most [fuel]
    of them (Linux gives up after 40). A relative target is taken
    from the directory of the link. *)
Fixpoint resolve (env : Env) (fuel : nat) (ns : gmap string dirent)
    (name : string) : option string :=
  match ns !! name with
  | Some (Lnk target) =>
      match fuel with
      | O => None
      | S fuel' =>
          resolve env fuel' ns
            (if is_rooted (ToSlash (goos env) target)
             then filepath_Clean (goos env) target
             else filepath_Join (goos env)
                    [filepath_Dir (goos env) name; target])
      end
  | _ => Some name
  end.

Definition maxSymlinks : nat := 40.

(** [os.Remove] of a file or link: the name goes, the inode stays for
    its other names. *)
Definition Remove (env : Env) (path : string) : M (option error) :=
  fun fs =>
    match names fs !! key env path with
    | Some _ =>
        (None, mkFS (delete (key env path) (names fs)) (inodes fs) (next_ino fs))
    | None => (Some (os_PathError "remove" path ENOENT), fs)
    end.

(** [os.Create]: open for writing, created if absent, truncated if
    present. The result is the open file (its inode). *)
Definition Create (env : Env) (path : string) : M (nat + error) :=
  fun fs =>
    match resolve env maxSymlinks (names fs) (key env path) with
    | None => (inr (os_PathError "open" path ELOOP), fs)
    | Some name =>
        match names fs !! name with
        | Some (Reg ino) =>
            (inl ino, mkFS (names fs) (<[ino := []]> (inodes fs)) (next_ino fs))
        | _ =>
            let ino := next_ino fs in
            (inl ino,
             mkFS (<[name := Reg ino]> (names fs))
                  (<[ino := []]> (inodes fs)) (S ino))
        end
    end.

(** [os.Open]: open for reading. *)
Definition Open (env : Env) (path : string) : M (nat + error) :=
  fun fs =>
    match resolve env maxSymlinks (names fs) (key env path) with
    | None => (inr (os_PathError "open" path ELOOP), fs)
    | Some name =>
        match names fs !! name with
        | Some (Reg ino) => (inl ino, fs)
        | _ => (inr (os_PathError "open" path ENOENT), fs)
        end
    end.

(** [file.Write(data)] *)
Definition Write (ino : nat) (data : list byte) : M unit :=
  fun fs =>
    (tt, mkFS (names fs)
           (<[ino := default [] (inodes fs !! ino) ++ data]> (inodes fs))
           (next_ino fs)).

(** What reading an open file to its end gives. *)
Definition ReadAll (ino : nat) : M (list byte) :=
  fun fs => (default [] (inodes fs !! ino), fs).

(** [os.Symlink(oldname, newname)] *)
Definition Symlink (env : Env) (oldname newname : string) : M (option error) :=
  fun fs =>
    match names fs !! key env newname with
    | Some _ => (Some (os_LinkError "symlink" oldname newname EEXIST), fs)
    | None =>
        (None, mkFS (<[key env newname := Lnk oldname]> (names fs))
                 (inodes fs) (next_ino fs))
    end.

(** [os.Link(oldname, newname)]: a second name for the same inode. *)
Definition Link (env : Env) (oldname newname : string) : M (option error) :=
  fun fs =>
    match names fs !! key env oldname with
    | None => (Some (os_LinkError "link" oldname newname ENOENT), fs)
    | Some d =>
        match names fs !! key env newname with
        | Some _ => (Some (os_LinkError "link" oldname newname EEXIST), fs)
        | None =>
            (None, mkFS (<[key env newname := d]> (names fs))
                     (inodes fs) (next_ino fs))
        end
    end.

(** [io.Copy(file, source)]: everything read is written; the first
    error that is not [io.EOF] is the result. *)
Fixpoint io_Copy (file : nat) (source : Reader) : M (option error) :=
  match source with
  | [] => mret None
  | (data, er) :: rest =>
      _ ← Write file data;
      match er with
      | Some e => if decide (e = io_EOF) then mret None else mret (Some e)
      | None => io_Copy file rest
      end
  end.

(** [os.FileInfo], the fields the backend reads. *)
Record FileInfo := mkFileInfo {
  Size : Z;
  IsDir : bool
}.

(** With implicit directories, a name is a directory when an entry lies
    below it. *)
Definition is_dir (env : Env) (ns : gmap string dirent) (name : string) : bool :=
  existsb
    (fun kv : string * dirent =>
       String.prefix (name +:+ String (Separator (goos env)) "") kv.1)
    (map_to_list ns).

(** [os.Stat]: symbolic links are followed. The size reported for a
    directory depends on the platform and is left at 0. *)
Definition Stat (env : Env) (path : string) : M (FileInfo + error) :=
  fun fs =>
    match resolve env maxSymlinks (names fs) (key env path) with
    | None => (inr (os_PathError "stat" path ELOOP), fs)
    | Some name =>
        match names fs !! name with
        | Some (Reg ino) =>
            (inl (mkFileInfo
                    (Z.of_nat (length (default [] (inodes fs !! ino)))) false),
             fs)
        | _ =>
            if is_dir env (names fs) name then (inl (mkFileInfo 0 true), fs)
            else (inr (os_PathError "stat" path ENOENT), fs)
        end
    end.

(** [os.IsNotExist] *)
Definition IsNotExist (e : error) : bool :=
  match e with
  | os_PathError _ _ errno | os_LinkError _ _ _ errno => String.eqb errno ENOENT
  | _ => false
  end.

End OS.

(** ** The local backend *)

Module Local.

(** [LocalStorageSignedURLBuilder]: absolute file path, object path
    and expiry (nanoseconds) to a URL. *)
Definition LocalStorageSignedURLBuilder : Type :=
  string -> string -> Z -> string * option error.

Record storageLocalFile := mkLocal {
  baseDir : string;
  publicBaseDir : string;
  publicBaseURL : string;
  signedURLBuilder : LocalStorageSignedURLBuilder
}.

Definition NewLocalStorage (baseDir publicBaseDir publicBaseURL : string)
    (signedURLBuilder : option LocalStorageSignedURLBuilder)
  : storageLocalFile :=
  mkLocal baseDir publicBaseDir publicBaseURL
    (match signedURLBuilder with
     | Some b => b
     | None => fun _ _ _ =>
         ("", Some (fmt_Errorf "[local-storage] unsupported signed url builder"))
     end).

(** Modelled from the spec: [isFileExists] is a helper of the package
    that is not among the sources; an entry under the given path is
    there or not ("the presence of a public-tree entry is the sole
    signal of current visibility"). *)
Definition isFileExists (env : Env) (path : string) : M bool :=
  fun fs => (bool_decide (is_Some (names fs !! OS.key env path)), fs).

(** Modelled from the spec: [mkdirIfNotExists] is a helper of the
    package that is not among the sources ("parent directories created
    as needed"); with implicit directories there is nothing to record. *)
Definition mkdirIfNotExists (env : Env) (dir : string) : M (option error) :=
  mret None.

Section Methods.
Variable env : Env.
Variable s : storageLocalFile.

Definition Read (objectPath : string) : M (nat + error) :=
  OS.Open env (filepath_Join (goos env) [baseDir s; objectPath]).

Definition checkAndCreateParentDirectory (filePath : string)
  : M (option error) :=
  let fileDir := filepath_Dir (goos env) filePath in
  mkdirIfNotExists env fileDir.

Definition makeObjectPublic (objectPath : string) : M (option error) :=
  let publicPath := filepath_Join (goos env) [publicBaseDir s; objectPath] in
  err ← checkAndCreateParentDirectory publicPath;
  match err with
  | Some e => mret (Some e)
  | None =>
      ex ← isFileExists env publicPath;
      err ← (if ex : bool then OS.Remove env publicPath else mret None);
      match err with
      | Some e => mret (Some e)
      | None =>
          let filePath := filepath_Join (goos env) [baseDir s; objectPath] in
          match goos env with
          | linux =>
              (* filepath.Abs fails only when os.Getwd does; the working
                 directory is given *)
              let absFilePath :=
                filepath_Abs linux (wd env) (ToSlash linux filePath) in
              err ← OS.Symlink env absFilePath publicPath;
              match err with
              | Some e =>
                  mret (Some (fmt_Errorf
                    ("[local-storage] err creating sym link: " +:+ error_string e)))
              | None => mret None
              end
          | _ =>
              (* windows: no privilege for a symbolic link, so a
                 copy/hard link *)
              OS.Link env filePath publicPath
          end
      end
  end.

Definition Put (objectPath : string) (source : Reader)
    (visibility : ObjectVisibility) : M (option error) :=
  let filePath := filepath_Join (goos env) [baseDir s; objectPath] in
  err ← checkAndCreateParentDirectory filePath;
  match err with
  | Some e => mret (Some e)
  | None =>
      r ← OS.Create env filePath;
      match r with
      | inr e => mret (Some e)
      | inl file =>
          err ← OS.io_Copy file source;
          if String.eqb visibility ObjectPublicRead
             || String.eqb visibility ObjectPublicReadWrite
          then makeObjectPublic objectPath
          else mret err
      end
  end.

Fixpoint Delete (objectPaths : list string) : M (option error) :=
  match objectPaths with
  | [] => mret None
  | objectPath :: rest =>
      let publicPath := filepath_Join (goos env) [publicBaseDir s; objectPath] in
      ex ← isFileExists env publicPath;
      err ← (if ex : bool then OS.Remove env publicPath else mret None);
      match err with
      | Some e => mret (Some e)
      | None =>
          let privatePath := filepath_Join (goos env) [baseDir s; objectPath] in
          ex ← isFileExists env privatePath;
          err ← (if ex : bool then OS.Remove env privatePath else mret None);
          match err with
          | Some e => mret (Some e)
          | None => Delete rest
          end
      end
  end.

Definition Copy (srcObjectPath dstObjectPath : string) : M (option error) :=
  let sourceFilePath := filepath_Join (goos env) [baseDir s; srcObjectPath] in
  err ← checkAndCreateParentDirectory sourceFilePath;
  match err with
  | Some e => mret (Some e)
  | None =>
      r ← OS.Open env sourceFilePath;
      match r with
      | inr e => mret (Some e)
      | inl sourceStream =>
          let destFilePath := filepath_Join (goos env) [baseDir s; dstObjectPath] in
          err ← checkAndCreateParentDirectory destFilePath;
          match err with
          | Some e => mret (Some e)
          | None =>
              r ← OS.Create env destFilePath;
              match r with
              | inr e => mret (Some e)
              | inl destFile =>
                  data ← OS.ReadAll sourceStream;
                  OS.io_Copy destFile [(data, None)]
              end
          end
      end
  end.

Definition URL (objectPath : string) (storageResize : option StorageResize)
  : M (string * option error) :=
  if String.eqb objectPath "" then mret ("", None)
  else
    let filePath := filepath_Join (goos env) [publicBaseDir s; objectPath] in
    ex ← isFileExists env filePath;
    if negb ex then
      mret ("", Some (fmt_Errorf
              "[local-storage] file not found in given public path"))
    else
      match url_Parse env (publicBaseURL s) with
      | inr e => mret ("", Some e)
      | inl u =>
          let u' := mkURL (Scheme u) (Host u)
                      (GoPath.Join [Path u; objectPath]) (RawQuery u) in
          mret (URL_String env u', None)
      end.

Definition TemporaryURL (objectPath : string) (expireIn : Z)
    (storageResize : option StorageResize) : M (string * option error) :=
  if String.eqb objectPath "" then mret ("", None)
  else
    let filePath := filepath_Join (goos env) [baseDir s; objectPath] in
    ex ← isFileExists env filePath;
    if ex : bool then mret (signedURLBuilder s filePath objectPath expireIn)
    else
      '(publicURL, err) ← URL objectPath storageResize;
      match err with
      | Some _ =>
          mret ("", Some (fmt_Errorf
            "[local-storage] err file not found in given public/private path"))
      | None => mret (publicURL, None)
      end.

Definition Size (objectPath : string) : M (Z * option error) :=
  r ← OS.Stat env (filepath_Join (goos env) [baseDir s; objectPath]);
  match r with
  | inr err => mret (0%Z, Some err)
  | inl info => mret (OS.Size info, None)
  end.

Definition Exist (objectPath : string) : M (bool * option error) :=
  r ← OS.Stat env (filepath_Join (goos env) [baseDir s; objectPath]);
  match r with
  | inr err =>
      if OS.IsNotExist err then mret (false, None) else mret (false, Some err)
  | inl info => mret (negb (OS.IsDir info), None)
  end.

Definition SetVisibility (objectPath : string)
    (visibility : ObjectVisibility) : M (option error) :=
  let publicPath := filepath_Join (goos env) [publicBaseDir s; objectPath] in
  if String.eqb visibility ObjectPrivate then
    ex ← isFileExists env publicPath;
    if ex : bool then OS.Remove env publicPath else mret None
  else if String.eqb visibility ObjectPublicRead
          || String.eqb visibility ObjectPublicReadWrite then
    ex ← isFileExists env publicPath;
    if negb ex then makeObjectPublic objectPath else mret None
  else
    mret (Some (fmt_Errorf
      ("[local-storage] err invalid object visibility: " +:+ visibility))).

Definition GetVisibility (objectPath : string)
  : M (ObjectVisibility * option error) :=
  let publicPath := filepath_Join (goos env) [publicBaseDir s; objectPath] in
  ex ← isFileExists env publicPath;
  if ex : bool then mret (ObjectPublicRead, None)
  else
    let filePath := filepath_Join (goos env) [baseDir s; objectPath] in
    ex ← isFileExists env filePath;
    if ex : bool then mret (ObjectPrivate, None)
    else
      mret ("", Some (fmt_Errorf
        ("[local-storage] err get visibility, object not found: "
         +:+ objectPath))).

End Methods.

End Local.

(** ** An environment to run the backends in

    [net/url] for URLs of the plain form [scheme://host/path?query], with
    nothing to escape: enough to run the examples of the test suite. *)

Module PlainURL.

Definition Parse (rawURL : string) : URL + error :=
  if String.prefix ":" rawURL then
    inr (url_Error "parse" rawURL)            (* missing protocol scheme *)
  else
  match String.index 0 "://" rawURL with
  | Some i =>
      let rest := String.substring (i + 3) (String.length rawURL - (i + 3)) rawURL in
      match String.index 0 "/" rest with
      | Some j =>
          inl (mkURL (String.substring 0 i rawURL) (String.substring 0 j rest)
                 (String.substring j (String.length rest - j) rest) "")
      | None => inl (mkURL (String.substring 0 i rawURL) rest "" "")
      end
  | None => inl (mkURL "" "" rawURL "")
  end.

Definition String (u : URL) : string :=
  (if String.eqb (Scheme u) "" then "" else Scheme u +:+ "://")
  +:+ Host u
  +:+ (if negb (String.eqb (Path u) "") && negb (is_rooted (Path u))
          && negb (String.eqb (Host u) "")
       then "/" else "")
  +:+ Path u
  +:+ (if String.eqb (RawQuery u) "" then "" else "?" +:+ RawQuery u).

End PlainURL.

(** The set-up of [storage_local_test.go], run from [/srv/app]. *)
Definition test_env (os : GOOS) : Env :=
  mkEnv os "/srv/app" PlainURL.Parse PlainURL.String.

Definition getLocalStorage : Local.storageLocalFile :=
  Local.NewLocalStorage "storage-test/private" "storage-test/public"
    "http://localhost:8000/files" None.

Definition bytes_of (s : string) : list byte := String.list_byte_of_string s.


(** ** Remote services

    A backend SDK is a transition system on the state [W] of the remote
    store and the network. Every request of the Go code is recorded, with
    its result, in the order the requests are made. *)

Module time.
Definition Nanosecond : Z := 1.
Definition Second : Z := 1000 * 1000 * 1000 * Nanosecond.
Definition Minute : Z := 60 * Second.
Definition Hour : Z := 60 * Minute.
End time.

(** Go's [int64] arithmetic wraps around. *)
Definition int64 (z : Z) : Z := (z + 2 ^ 63) mod 2 ^ 64 - 2 ^ 63.

Record Remote (W call : Type) := mkRemote {
  service : W;
  calls : list call
}.
Arguments mkRemote {W call}.
Arguments service {W call}.
Arguments calls {W call}.

(** One request: the service moves on and the call is recorded. *)
Definition request {W call A} (f : W -> A * W) (record : A -> call)
  : State (Remote W call) A :=
  fun st =>
    let (a, w') := f (service st) in
    (a, mkRemote w' (calls st ++ [record a])).

(** ** The S3 backend, [storage_s3.go] *)

Module S3.

Definition maxRetry : nat := 3.            (* maximum retry for uploading part *)
Definition s3PartSize : Z := 5120 * 1024.  (* 5MB is minimum s3 part size upload *)
Definition s3SignedURLExpire : Z := 24 * time.Hour.

(** *** The AWS SDK *)

Definition BucketCannedACLPrivate := "private".
Definition BucketCannedACLPublicRead := "public-read".
Definition BucketCannedACLPublicReadWrite := "public-read-write".
Definition PermissionRead := "READ".
Definition PermissionWrite := "WRITE".

Record CreateMultipartUploadInput := mkCreateInput {
  create_ACL : string;
  create_Bucket : string;
  create_Key : string;
  create_Expires : Z
}.

Record CreateMultipartUploadOutput := mkCreateOutput {
  Bucket : string;
  Key : string;
  UploadId : string
}.

Record UploadPartInput := mkUploadPartInput {
  part_Bucket : string;
  part_Key : string;
  part_UploadId : string;
  part_Body : list byte;
  part_ContentLength : Z;
  part_PartNumber : Z
}.

Record CompletedPart := mkCompletedPart {
  ETag : string;
  PartNumber : Z
}.

Record CompleteMultipartUploadInput := mkCompleteInput {
  complete_Bucket : string;
  complete_Key : string;
  complete_UploadId : string;
  complete_Parts : list (option CompletedPart)
}.

Record HeadObjectOutput := mkHead {
  ContentLength : Z;
  LastModified : option Z
}.

(** A grant of an object ACL; [aws.StringValue] reads a nil string
    pointer as the empty string. *)
Record Grant := mkGrant {
  GranteeURI : option string;
  Permission : option string
}.

Definition aws_StringValue (p : option string) : string := default "" p.

(** The requests of the backend, each with what came back. *)
Inductive call :=
| GetObject (bucket key : string) (r : list byte + error)
| CreateMultipartUpload (input : CreateMultipartUploadInput)
    (r : CreateMultipartUploadOutput + error)
| UploadPart (input : UploadPartInput) (r : string + error)
| AbortMultipartUpload (bucket key uploadId : string) (r : option error)
| CompleteMultipartUpload (input : CompleteMultipartUploadInput)
    (r : string + error)
| DeleteObject (bucket key : string) (r : option error)
| DeleteObjects (bucket : string) (keys : list string) (r : option error)
| CopyObject (bucket key copySource : string) (r : string + error)
| Presign (bucket key : string) (expire : Z) (r : string * option error)
| HeadObject (bucket key : string) (r : HeadObjectOutput + error)
| PutObjectAcl (bucket key acl : string) (r : option error)
| GetObjectAcl (bucket key : string) (r : list Grant + error)
| Sleep (d : Z).

(** The service behind [s3.S3], and the clock. *)
Record SDK (W : Type) := mkSDK {
  sdk_GetObject : string -> string -> W -> (list byte + error) * W;
  sdk_CreateMultipartUpload :
    CreateMultipartUploadInput -> W -> (CreateMultipartUploadOutput + error) * W;
  sdk_UploadPart : UploadPartInput -> W -> (string + error) * W;
  sdk_AbortMultipartUpload : string -> string -> string -> W -> option error * W;
  sdk_CompleteMultipartUpload :
    CompleteMultipartUploadInput -> W -> (string + error) * W;
  sdk_DeleteObject : string -> string -> W -> option error * W;
  sdk_DeleteObjects : string -> list string -> W -> option error * W;
  sdk_CopyObject : string -> string -> string -> W -> (string + error) * W;
  sdk_Presign : string -> string -> Z -> W -> (string * option error) * W;
  sdk_HeadObject : string -> string -> W -> (HeadObjectOutput + error) * W;
  sdk_PutObjectAcl : string -> string -> string -> W -> option error * W;
  sdk_GetObjectAcl : string -> string -> W -> (list Grant + error) * W;
  time_Now : W -> Z
}.

Record storageS3 := mkS3 {
  region : string;
  bucketName : string
}.

Section Methods.
Context {W : Type}.
Variable env : Env.
Variable sdk : SDK W.
Variable s : storageS3.

Abbreviation S3M := (State (Remote W call)).

Definition cleanS3ObjectPath (objectPath : string) : string :=
  Clean (ToSlash (goos env) objectPath).

Definition Read (objectPath : string) : S3M (list byte + error) :=
  let objectPath := cleanS3ObjectPath objectPath in
  request (sdk_GetObject W sdk (bucketName s) objectPath)
    (GetObject (bucketName s) objectPath).

Definition getS3ACLOrError (visibility : ObjectVisibility) : string + error :=
  if String.eqb visibility ObjectPublicRead then
    inl BucketCannedACLPublicRead
  else if String.eqb visibility ObjectPublicReadWrite then
    inl BucketCannedACLPublicReadWrite
  else if String.eqb visibility ObjectPrivate then
    inl BucketCannedACLPrivate
  else
    inr (fmt_Errorf ("err invalid object visibility: " +:+ visibility)).

(** The loop [for retry < maxRetry] of [uploadMultipart], by
    recursion on the attempts left, [maxRetry - retry]. *)
Fixpoint uploadPart_attempts (left : nat) (uploadInput : UploadPartInput)
    (partNumber : Z) : S3M (option CompletedPart * option error) :=
  match left with
  | O => mret (None, None)
  | S left' =>
      r ← request (sdk_UploadPart W sdk uploadInput) (UploadPart uploadInput);
      match r with
      | inr err =>
          (* retry++ *)
          match left' with
          | O => mret (None, Some err)           (* retry >= maxRetry *)
          | S _ =>
              _ ← request (fun w => (tt, w)) (fun _ => Sleep (time.Second * 2));
              uploadPart_attempts left' uploadInput partNumber
          end
      | inl etag => mret (Some (mkCompletedPart etag partNumber), None)
      end
  end.

Definition uploadMultipart (resp : CreateMultipartUploadOutput)
    (data : list byte) (partNumber : Z)
  : S3M (option CompletedPart * option error) :=
  let uploadInput :=
    mkUploadPartInput (Bucket resp) (Key resp) (UploadId resp) data
      (int64 (Z.of_nat (length data))) partNumber in
  uploadPart_attempts maxRetry uploadInput partNumber.

Definition abortMultipartUpload (resp : CreateMultipartUploadOutput)
  : S3M (option error) :=
  request (sdk_AbortMultipartUpload W sdk (Bucket resp) (Key resp) (UploadId resp))
    (AbortMultipartUpload (Bucket resp) (Key resp) (UploadId resp)).

(** The reading loop of [Put]: the parts completed when the loop is
    left by [break], or the error it returns with. *)
Fixpoint Put_loop (source : Reader) (createdResp : CreateMultipartUploadOutput)
    (partNumber : Z) (completedParts : list (option CompletedPart))
  : S3M (list (option CompletedPart) + option error) :=
  match source with
  | [] => mret (inl completedParts)           (* Read gives 0, io.EOF *)
  | (data, err) :: source' =>
      if bool_decide (err ≠ None ∧ err ≠ Some io_EOF) then
        aerr ← abortMultipartUpload createdResp;
        match aerr with
        | Some e => mret (inr (Some e))
        | None => mret (inr err)
        end
      else if bool_decide (Z.of_nat (length data) <= 0)%Z then
        mret (inl completedParts)
      else
        '(completed, err) ← uploadMultipart createdResp data partNumber;
        match err with
        | Some _ =>
            aerr ← abortMultipartUpload createdResp;
            match aerr with
            | Some e => mret (inr (Some e))
            | None => mret (inr err)
            end
        | None =>
            Put_loop source' createdResp (int64 (partNumber + 1))
              (completedParts ++ [completed])
        end
  end.

Definition Put (objectPath : string) (source : Reader)
    (visibility : ObjectVisibility) : S3M (option error) :=
  let objectPath := cleanS3ObjectPath objectPath in
  match getS3ACLOrError visibility with
  | inr err => mret (Some err)
  | inl acl =>
      now ← (fun st => (time_Now W sdk (service st), st));
      let expireAt := (now + time.Hour * 6)%Z in
      let input := mkCreateInput acl (bucketName s) objectPath expireAt in
      r ← request (sdk_CreateMultipartUpload W sdk input)
            (CreateMultipartUpload input);
      match r with
      | inr err => mret (Some err)
      | inl createdResp =>
          r ← Put_loop source createdResp 1 [];
          match r with
          | inr err => mret err
          | inl completedParts =>
              let input :=
                mkCompleteInput (Bucket createdResp) (Key createdResp)
                  (UploadId createdResp) completedParts in
              r ← request (sdk_CompleteMultipartUpload W sdk input)
                    (CompleteMultipartUpload input);
              match r with
              | inr err => mret (Some err)
              | inl _ => mret None
              end
          end
      end
  end.

Definition Delete (objectPaths : list string) : S3M (option error) :=
  match objectPaths with
  | [] => mret None
  | [objectPath0] =>
      let objectPath := cleanS3ObjectPath objectPath0 in
      request (sdk_DeleteObject W sdk (bucketName s) objectPath)
        (DeleteObject (bucketName s) objectPath)
  | _ =>
      let objectIdentifiers := map cleanS3ObjectPath objectPaths in
      request (sdk_DeleteObjects W sdk (bucketName s) objectIdentifiers)
        (DeleteObjects (bucketName s) objectIdentifiers)
  end.

Definition Copy (srcObjectPath dstObjectPath : string) : S3M (option error) :=
  let srcObjectPath := cleanS3ObjectPath srcObjectPath in
  let dstObjectPath := cleanS3ObjectPath dstObjectPath in
  r ← request (sdk_CopyObject W sdk (bucketName s) dstObjectPath srcObjectPath)
        (CopyObject (bucketName s) dstObjectPath srcObjectPath);
  match r with
  | inr err => mret (Some err)
  | inl _ => mret None
  end.

Definition URL (objectPath : string) (storageResize : option StorageResize)
  : S3M (string * option error) :=
  if String.eqb objectPath "" then mret ("", None)
  else
    let objectPath := cleanS3ObjectPath objectPath in
    mret ("https://" +:+ bucketName s +:+ ".s3-" +:+ region s
          +:+ ".amazonaws.com/" +:+ objectPath, None).

Definition TemporaryURL (objectPath : string) (expireIn : Z)
    (storageResize : option StorageResize) : S3M (string * option error) :=
  let expireIn :=
    if (expireIn <? s3SignedURLExpire)%Z then s3SignedURLExpire else expireIn in
  request (sdk_Presign W sdk (bucketName s) objectPath expireIn)
    (Presign (bucketName s) objectPath expireIn).

Definition Size (objectPath : string) : S3M (Z * option error) :=
  let objectPath := cleanS3ObjectPath objectPath in
  r ← request (sdk_HeadObject W sdk (bucketName s) objectPath)
        (HeadObject (bucketName s) objectPath);
  match r with
  | inr err => mret (0%Z, Some err)
  | inl output => mret (ContentLength output, None)
  end.

(** The SDK fills [LastModified] of an object that is there; a nil
    field is read as the zero time. *)
Definition getLastModified (objectPath : string) : S3M (Z * option error) :=
  let objectPath := cleanS3ObjectPath objectPath in
  r ← request (sdk_HeadObject W sdk (bucketName s) objectPath)
        (HeadObject (bucketName s) objectPath);
  match r with
  | inr err => mret (0%Z, Some err)
  | inl output => mret (default 0%Z (LastModified output), None)
  end.

Definition Exist (objectPath : string) : S3M (bool * option error) :=
  let objectPath := cleanS3ObjectPath objectPath in
  r ← request (sdk_HeadObject W sdk (bucketName s) objectPath)
        (HeadObject (bucketName s) objectPath);
  match r with
  | inr err => mret (false, Some err)
  | inl output => mret (bool_decide (LastModified output ≠ None), None)
  end.

Definition SetVisibility (objectPath : string)
    (visibility : ObjectVisibility) : S3M (option error) :=
  let objectPath := cleanS3ObjectPath objectPath in
  match getS3ACLOrError visibility with
  | inl acl =>
      request (sdk_PutObjectAcl W sdk (bucketName s) objectPath acl)
        (PutObjectAcl (bucketName s) objectPath acl)
  | inr err => mret (Some err)
  end.

(** The loop over [output.Grants]: the flags [hasRead], [hasWrite]. *)
Fixpoint scanGrants (grants : list Grant) (hasRead hasWrite : bool)
  : bool * bool :=
  match grants with
  | [] => (hasRead, hasWrite)
  | grant :: grants' =>
      if String.eqb (aws_StringValue (GranteeURI grant))
           "http://acs.amazonaws.com/groups/global/AllUsers" then
        if String.eqb (aws_StringValue (Permission grant)) PermissionRead then
          scanGrants grants' true hasWrite
        else if String.eqb (aws_StringValue (Permission grant)) PermissionWrite then
          scanGrants grants' hasRead true
        else scanGrants grants' hasRead hasWrite
      else scanGrants grants' hasRead hasWrite
  end.

Definition GetVisibility (objectPath : string)
  : S3M (ObjectVisibility * option error) :=
  r ← request (sdk_GetObjectAcl W sdk (bucketName s) objectPath)
        (GetObjectAcl (bucketName s) objectPath);
  match r with
  | inr err => mret ("", Some err)
  | inl grants =>
      (* here err == nil *)
      let err : option error := None in
      let '(hasRead, hasWrite) := scanGrants grants false false in
      if hasRead && hasWrite then mret (ObjectPublicReadWrite, None)
      else if hasRead then mret (ObjectPublicRead, None)
      else mret ("", err)
  end.

End Methods.
End S3.

(** ** The Alibaba OSS backend *)

Module OSS.

Definition ossSignedURLExpire : Z := 1 * time.Minute.   (* 1 Minute *)

(** *** The Alibaba SDK *)

Definition ACLPrivate := "private".
Definition ACLPublicRead := "public-read".
Definition ACLPublicReadWrite := "public-read-write".
Definition HTTPGet := "GET".

Inductive call :=
| GetObject (key : string) (r : list byte + error)
| PutObject (key : string) (source : Reader) (acl : string) (r : option error)
| DeleteObject (key : string) (r : option error)
| DeleteObjects (keys : list string) (r : option error)
| CopyObject (srcKey dstKey : string) (r : option error)
| SignURL (key method : string) (expiredInSec : Z) (process : string)
    (r : string * option error)
| GetObjectMeta (key : string) (r : gmap string string + error)
| IsObjectExist (key : string) (r : bool * option error)
| SetObjectACL (key acl : string) (r : option error)
| GetObjectACL (key : string) (r : string + error).

(** The service behind [oss.Bucket], and the two parsers of the
    standard library used on its headers. *)
Record SDK (W : Type) := mkSDK {
  sdk_GetObject : string -> W -> (list byte + error) * W;
  sdk_PutObject : string -> Reader -> string -> W -> option error * W;
  sdk_DeleteObject : string -> W -> option error * W;
  sdk_DeleteObjects : list string -> W -> option error * W;
  sdk_CopyObject : string -> string -> W -> option error * W;
  sdk_SignURL : string -> string -> Z -> string -> W -> (string * option error) * W;
  sdk_GetObjectMeta : string -> W -> (gmap string string + error) * W;
  sdk_IsObjectExist : string -> W -> (bool * option error) * W;
  sdk_SetObjectACL : string -> string -> W -> option error * W;
  sdk_GetObjectACL : string -> W -> (string + error) * W;
  strconv_ParseInt : string -> Z * option error;
  http_ParseTime : string -> Z + error
}.

Record storageAlibabaOSS := mkOSS {
  BucketName : string;
  Endpoint : string
}.

(** [strings.HasPrefix] and the slice [s[n:]] *)
Definition HasPrefix (str pre : string) : bool := String.prefix pre str.
Definition string_from (n : nat) (str : string) : string :=
  String.substring n (String.length str - n) str.

Definition removeSchemeFromEndpoint (endpoint : string) : string :=
  if HasPrefix endpoint "https://" then
    string_from (String.length "https://") endpoint
  else if HasPrefix endpoint "http://" then
    string_from (String.length "http://") endpoint
  else endpoint.

Section Methods.
Context {W : Type}.
Variable env : Env.
Variable sdk : SDK W.
Variable s : storageAlibabaOSS.

Abbreviation OSSM := (State (Remote W call)).

Definition cleanOSSObjectPath (objectPath : string) : string :=
  Clean (ToSlash (goos env) objectPath).

Definition Read (objectPath : string) : OSSM (list byte + error) :=
  request (sdk_GetObject W sdk (cleanOSSObjectPath objectPath))
    (GetObject (cleanOSSObjectPath objectPath)).

Definition getACLOSSOrError (visibility : ObjectVisibility) : string * option error :=
  if String.eqb visibility ObjectPublicRead then (ACLPublicRead, None)
  else if String.eqb visibility ObjectPublicReadWrite then
    (ACLPublicReadWrite, None)
  else if String.eqb visibility ObjectPrivate then (ACLPrivate, None)
  else ("", Some (fmt_Errorf ("err invalid object visibility: " +:+ visibility))).

Definition Put (objectPath : string) (source : Reader)
    (visibility : ObjectVisibility) : OSSM (option error) :=
  match getACLOSSOrError visibility with
  | (acl, None) =>
      request (sdk_PutObject W sdk (cleanOSSObjectPath objectPath) source acl)
        (PutObject (cleanOSSObjectPath objectPath) source acl)
  | (_, Some err) => mret (Some err)
  end.

Definition Delete (objectPaths : list string) : OSSM (option error) :=
  match objectPaths with
  | [] => mret None
  | [objectPath0] =>
      request (sdk_DeleteObject W sdk (cleanOSSObjectPath objectPath0))
        (DeleteObject (cleanOSSObjectPath objectPath0))
  | _ =>
      let cleanedPaths := map cleanOSSObjectPath objectPaths in
      request (sdk_DeleteObjects W sdk objectPaths) (DeleteObjects objectPaths)
  end.

Definition Copy (srcObjectPath dstObjectPath : string) : OSSM (option error) :=
  request
    (sdk_CopyObject W sdk (cleanOSSObjectPath srcObjectPath)
       (cleanOSSObjectPath dstObjectPath))
    (CopyObject (cleanOSSObjectPath srcObjectPath)
       (cleanOSSObjectPath dstObjectPath)).

Definition URL (objectPath : string) (storageResize : option StorageResize)
  : OSSM (string * option error) :=
  if String.eqb objectPath "" then mret ("", None)
  else
    let objectPath := cleanOSSObjectPath objectPath in
    let endpoint := removeSchemeFromEndpoint (Endpoint s) in
    let rawQuery :=
      match storageResize with
      | Some _ => "x-oss-process=" +:+ ConvertForOss storageResize
      | None => ""
      end in
    let u := mkURL "https" ""
               (GoPath.Join [BucketName s +:+ "." +:+ endpoint; objectPath])
               rawQuery in
    mret (URL_String env u, None).

Definition TemporaryURL (objectPath : string) (expireIn : Z)
    (storageResize : option StorageResize) : OSSM (string * option error) :=
  let expireIn :=
    if (expireIn <? ossSignedURLExpire)%Z then ossSignedURLExpire else expireIn in
  let expireInSec := int64 (Z.quot expireIn time.Second) in
  let storageResizeQuery := ConvertForOss storageResize in
  request (sdk_SignURL W sdk objectPath HTTPGet expireInSec storageResizeQuery)
    (SignURL objectPath HTTPGet expireInSec storageResizeQuery).

Definition Size (objectPath : string) : OSSM (Z * option error) :=
  r ← request (sdk_GetObjectMeta W sdk (cleanOSSObjectPath objectPath))
        (GetObjectMeta (cleanOSSObjectPath objectPath));
  match r with
  | inr err => mret (0%Z, Some err)
  | inl header =>
      let sizeStr := default "" (header !! "Content-Length") in
      mret (strconv_ParseInt W sdk sizeStr)
  end.

Definition getLastModified (objectPath : string) : OSSM (Z * option error) :=
  r ← request (sdk_GetObjectMeta W sdk (cleanOSSObjectPath objectPath))
        (GetObjectMeta (cleanOSSObjectPath objectPath));
  match r with
  | inr err => mret (0%Z, Some err)
  | inl header =>
      match http_ParseTime W sdk (default "" (header !! "Last-Modified")) with
      | inr err => mret (0%Z, Some err)
      | inl LastModified => mret (LastModified, None)
      end
  end.

Definition Exist (objectPath : string) : OSSM (bool * option error) :=
  request (sdk_IsObjectExist W sdk (cleanOSSObjectPath objectPath))
    (IsObjectExist (cleanOSSObjectPath objectPath)).

Definition SetVisibility (objectPath : string)
    (visibility : ObjectVisibility) : OSSM (option error) :=
  match getACLOSSOrError visibility with
  | (acl, None) =>
      request (sdk_SetObjectACL W sdk (cleanOSSObjectPath objectPath) acl)
        (SetObjectACL (cleanOSSObjectPath objectPath) acl)
  | (_, Some err) => mret (Some err)
  end.

Definition GetVisibility (objectPath : string)
  : OSSM (ObjectVisibility * option error) :=
  r ← request (sdk_GetObjectACL W sdk (cleanOSSObjectPath objectPath))
        (GetObjectACL (cleanOSSObjectPath objectPath));
  match r with
  | inr err => mret ("", Some err)
  | inl aclType =>
      if String.eqb aclType ACLPrivate then mret (ObjectPrivate, None)
      else if String.eqb aclType ACLPublicRead then mret (ObjectPublicRead, None)
      else if String.eqb aclType ACLPublicReadWrite then
        mret (ObjectPublicReadWrite, None)
      else mret ("", Some (fmt_Errorf "invalid returned ACL value"))
  end.

End Methods.
End OSS.

(** ** The [Storage] interface

    A call of one of the methods of the interface, with its arguments;
    every backend runs it with its own method. *)

Inductive StorageCall :=
| CallRead (objectPath : string)
| CallPut (objectPath : string) (source : Reader) (visibility : ObjectVisibility)
| CallDelete (objectPaths : list string)
| CallURL (objectPath : string) (storageResize : option StorageResize)
| CallTemporaryURL (objectPath : string) (expireIn : Z)
    (storageResize : option StorageResize)
| CallCopy (srcObjectPath dstObjectPath : string)
| CallSize (objectPath : string)
| CallLastModified (objectPath : string)
| CallExist (objectPath : string)
| CallSetVisibility (objectPath : string) (visibility : ObjectVisibility)
| CallGetVisibility (objectPath : string).

(** The object paths the client hands over in a call. *)
Definition call_paths (c : StorageCall) : list string :=
  match c with
  | CallRead p | CallPut p _ _ | CallURL p _ | CallTemporaryURL p _ _
  | CallSize p | CallLastModified p | CallExist p | CallSetVisibility p _
  | CallGetVisibility p => [p]
  | CallDelete ps => ps
  | CallCopy src dst => [src; dst]
  end.

(** Run a computation for its effect. *)
Definition exec {S A} (m : State S A) : S -> S := fun st => (m st).2.

Definition S3_run {W} (env : Env) (sdk : S3.SDK W) (s : S3.storageS3)
    (c : StorageCall) : Remote W S3.call -> Remote W S3.call :=
  match c with
  | CallRead p => exec (S3.Read env sdk s p)
  | CallPut p source v => exec (S3.Put env sdk s p source v)
  | CallDelete ps => exec (S3.Delete env sdk s ps)
  | CallURL p r => exec (S3.URL env s p r)
  | CallTemporaryURL p e r => exec (S3.TemporaryURL sdk s p e r)
  | CallCopy src dst => exec (S3.Copy env sdk s src dst)
  | CallSize p => exec (S3.Size env sdk s p)
  | CallLastModified p => exec (S3.getLastModified env sdk s p)
  | CallExist p => exec (S3.Exist env sdk s p)
  | CallSetVisibility p v => exec (S3.SetVisibility env sdk s p v)
  | CallGetVisibility p => exec (S3.GetVisibility sdk s p)
  end.

Definition OSS_run {W} (env : Env) (sdk : OSS.SDK W) (s : OSS.storageAlibabaOSS)
    (c : StorageCall) : Remote W OSS.call -> Remote W OSS.call :=
  match c with
  | CallRead p => exec (OSS.Read env sdk p)
  | CallPut p source v => exec (OSS.Put env sdk p source v)
  | CallDelete ps => exec (OSS.Delete env sdk ps)
  | CallURL p r => exec (OSS.URL env s p r)
  | CallTemporaryURL p e r => exec (OSS.TemporaryURL sdk p e r)
  | CallCopy src dst => exec (OSS.Copy env sdk src dst)
  | CallSize p => exec (OSS.Size env sdk p)
  | CallLastModified p => exec (OSS.getLastModified env sdk p)
  | CallExist p => exec (OSS.Exist env sdk p)
  | CallSetVisibility p v => exec (OSS.SetVisibility env sdk p v)
  | CallGetVisibility p => exec (OSS.GetVisibility env sdk p)
  end.

(** The object keys a request names on the client's behalf. The part,
    abort and completion requests of a multipart upload name the session
    that the service opened, not a key of the client. *)
Definition S3_call_keys (c : S3.call) : list string :=
  match c with
  | S3.GetObject _ key _ | S3.DeleteObject _ key _ | S3.Presign _ key _ _
  | S3.HeadObject _ key _ | S3.PutObjectAcl _ key _ _
  | S3.GetObjectAcl _ key _ => [key]
  | S3.CreateMultipartUpload input _ => [S3.create_Key input]
  | S3.DeleteObjects _ keys _ => keys
  | S3.CopyObject _ key copySource _ => [key; copySource]
  | S3.UploadPart _ _ | S3.AbortMultipartUpload _ _ _ _
  | S3.CompleteMultipartUpload _ _ | S3.Sleep _ => []
  end.

Definition OSS_call_keys (c : OSS.call) : list string :=
  match c with
  | OSS.GetObject key _ | OSS.PutObject key _ _ _ | OSS.DeleteObject key _
  | OSS.SignURL key _ _ _ _ | OSS.GetObjectMeta key _ | OSS.IsObjectExist key _
  | OSS.SetObjectACL key _ _ | OSS.GetObjectACL key _ => [key]
  | OSS.DeleteObjects keys _ => keys
  | OSS.CopyObject srcKey dstKey _ => [srcKey; dstKey]
  end.

(** The methods that normalise the object path before the request. *)
Definition S3_normalises (c : StorageCall) : bool :=
  match c with
  | CallTemporaryURL _ _ _ | CallGetVisibility _ => false
  | _ => true
  end.

Definition OSS_normalises (c : StorageCall) : bool :=
  match c with
  | CallTemporaryURL _ _ _ => false
  | CallDelete (_ :: _ :: _) => false
  | _ => true
  end.

(** *** Vocabulary for keys *)

Fixpoint slash_free (s : string) : bool :=
  match s with
  | EmptyString => true
  | String c s' => negb (Ascii.eqb c "/"%char) && slash_free s'
  end.

(** A plain name: a path element that is not empty, [.] or [..]. *)
Definition is_name (elem : string) : bool :=
  slash_free elem && negb (String.eqb elem "") && negb (String.eqb elem ".")
  && negb (String.eqb elem "..").

(** The [..] elements of a path never outnumber the names before them:
    read from the left, the path does not climb above where it starts.
    [depth] is the number of names that can still be undone. *)
Fixpoint stays_below (depth : nat) (elems : list string) : bool :=
  match elems with
  | [] => true
  | elem :: elems' =>
      if String.eqb elem "" || String.eqb elem "." then stays_below depth elems'
      else if String.eqb elem ".." then
        match depth with
        | O => false
        | S depth' => stays_below depth' elems'
        end
      else stays_below (S depth) elems'
  end.

Definition no_climb (os : GOOS) (objectPath : string) : bool :=
  stays_below 0 (split_slash (ToSlash os objectPath)).

(** What the scan of [path.Clean] has written at any moment, the last
    element first: plain names on top of the [..] elements that could not
    be undone, and no such element in a rooted path. *)
Definition clean_shape (rooted : bool) (out : list string) : Prop :=
  exists names n,
    out = names ++ replicate n ".."
    ∧ Forall (fun x => is_name x = true) names
    ∧ (rooted = true -> n = 0).

(** A string in slash form on windows: replacing the backslashes changes
    nothing. *)
Definition slashed (str : string) : Prop :=
  replace_char "\"%char "/"%char str = str.

(** The key made of the given names: what [path.Clean] writes for a
    path whose elements come down to these names. *)
Definition key_of_names (rooted : bool) (names : list string) : string :=
  if rooted then "/" +:+ join_slash names
  else match names with
       | [] => "."
       | _ => join_slash names
       end.

(** A key that is the cleaned form of one of the object paths of the
    call. *)
Definition cleaned_of (env : Env) (c : StorageCall) (key : string) : Prop :=
  exists p, p ∈ call_paths c ∧ key = Clean (ToSlash (goos env) p).

(** A path lies in the tree under [root] when, element by element, it
    starts with [root]. *)
Definition under (root path : string) : bool :=
  bool_decide (split_slash root `prefix_of` split_slash path).

(** The names of an object in the two trees of the local backend. *)
Definition private_name (env : Env) (s : Local.storageLocalFile)
    (objectPath : string) : string :=
  OS.key env (filepath_Join (goos env) [Local.baseDir s; objectPath]).

Definition public_name (env : Env) (s : Local.storageLocalFile)
    (objectPath : string) : string :=
  OS.key env (filepath_Join (goos env) [Local.publicBaseDir s; objectPath]).

(** The error of [URL] for an object without a public entry. *)
Definition not_found_in_public : error :=
  fmt_Errorf "[local-storage] file not found in given public path".

(** *** Vocabulary for copies and grants *)

(** The bytes that [io.Copy] writes from a reader: everything read up to
    the first error. *)
Fixpoint copied (source : Reader) : list byte :=
  match source with
  | [] => []
  | (data, er) :: source' =>
      data ++ match er with
              | Some _ => []
              | None => copied source'
              end
  end.

(** The error [io.Copy] ends with: the first one that is not [io.EOF]. *)
Fixpoint copy_error (source : Reader) : option error :=
  match source with
  | [] => None
  | (_, Some e) :: _ => if decide (e = io_EOF) then None else Some e
  | (_, None) :: source' => copy_error source'
  end.

(** A grant of the given permission to the all-users group. *)
Definition grants_all_users (permission : string) (grant : S3.Grant) : bool :=
  String.eqb (S3.aws_StringValue (S3.GranteeURI grant))
    "http://acs.amazonaws.com/groups/global/AllUsers"
  && String.eqb (S3.aws_StringValue (S3.Permission grant)) permission.

(** The sessions that were opened. *)
Fixpoint creates (cs : list S3.call) : list S3.CreateMultipartUploadOutput :=
  match cs with
  | [] => []
  | S3.CreateMultipartUpload _ (inl out) :: cs' => out :: creates cs'
  | _ :: cs' => creates cs'
  end.

(** The pauses of the trace. *)
Fixpoint sleeps (cs : list S3.call) : list Z :=
  match cs with
  | [] => []
  | S3.Sleep d :: cs' => d :: sleeps cs'
  | _ :: cs' => sleeps cs'
  end.

(** *** Vocabulary for the trace of a multipart upload *)

(** The parts that were accepted, with their integrity tags. *)
Fixpoint uploads_ok (cs : list S3.call) : list (S3.UploadPartInput * string) :=
  match cs with
  | [] => []
  | S3.UploadPart input (inl etag) :: cs' => (input, etag) :: uploads_ok cs'
  | _ :: cs' => uploads_ok cs'
  end.

(** Every submission of a part, accepted or not. *)
Fixpoint uploads (cs : list S3.call) : list S3.UploadPartInput :=
  match cs with
  | [] => []
  | S3.UploadPart input _ :: cs' => input :: uploads cs'
  | _ :: cs' => uploads cs'
  end.

(** The part lists of the completion requests. *)
Fixpoint completions (cs : list S3.call) : list (list (option S3.CompletedPart)) :=
  match cs with
  | [] => []
  | S3.CompleteMultipartUpload input _ :: cs' =>
      S3.complete_Parts input :: completions cs'
  | _ :: cs' => completions cs'
  end.

(** The sessions that an abort request was sent for. *)
Fixpoint aborts (cs : list S3.call) : list string :=
  match cs with
  | [] => []
  | S3.AbortMultipartUpload _ _ uploadId _ :: cs' => uploadId :: aborts cs'
  | _ :: cs' => aborts cs'
  end.

Definition descriptor (p : S3.UploadPartInput * string) : option S3.CompletedPart :=
  Some (S3.mkCompletedPart p.2 (S3.part_PartNumber p.1)).

(** The chunks that the reading loop of [Put] gets before it stops. *)
Fixpoint chunks_read (source : Reader) : list (list byte) :=
  match source with
  | [] => []
  | (data, err) :: source' =>
      if bool_decide (err ≠ None ∧ err ≠ Some io_EOF) then []
      else match data with
           | [] => []
           | _ => data :: chunks_read source'
           end
  end.

(** The request for one part, as [uploadMultipart] builds it. *)
Definition part_input (resp : S3.CreateMultipartUploadOutput)
    (data : list byte) (partNumber : Z) : S3.UploadPartInput :=
  S3.mkUploadPartInput (S3.Bucket resp) (S3.Key resp) (S3.UploadId resp) data
    (int64 (Z.of_nat (length data))) partNumber.

(** The abort request of a session. *)
Definition abort_call (resp : S3.CreateMultipartUploadOutput)
    (r : option error) : S3.call :=
  S3.AbortMultipartUpload (S3.Bucket resp) (S3.Key resp) (S3.UploadId resp) r.

(** The pause between two submissions of a part. *)
Definition pause : S3.call := S3.Sleep (time.Second * 2).

(** Part numbers that go up by one from [first], without a gap. *)
Fixpoint consecutive_from (first : Z) (numbers : list Z) : Prop :=
  match numbers with
  | [] => True
  | n :: numbers' => n = first ∧ consecutive_from (first + 1) numbers'
  end.

Definition part_numbers (parts : list (S3.UploadPartInput * string)) : list Z :=
  map (fun p => S3.part_PartNumber p.1) parts.

Definition part_bodies (parts : list (S3.UploadPartInput * string))
  : list (list byte) :=
  map (fun p => S3.part_Body p.1) parts.

(** *** Services to run the remote backends against *)

Module S3Mock.

(** What the service is going to answer: the results of the coming
    part submissions (an accepted part after that), and of an abort. *)
Record world := mkWorld {
  upload_results : list (string + error);
  abort_result : option error;
  object_grants : list S3.Grant
}.

Definition sdk : S3.SDK world :=
  S3.mkSDK world
    (fun _ _ w => (inl [], w))
    (fun input w =>
       (inl (S3.mkCreateOutput (S3.create_Bucket input) (S3.create_Key input)
               "upload-1"), w))
    (fun _ w =>
       match upload_results w with
       | [] => (inl "etag", w)
       | r :: rest => (r, mkWorld rest (abort_result w) (object_grants w))
       end)
    (fun _ _ _ w => (abort_result w, w))
    (fun _ w => (inl "completed", w))
    (fun _ _ w => (None, w))
    (fun _ _ w => (None, w))
    (fun _ _ _ w => (inl "copied", w))
    (fun bucket key expire w => ("https://signed/" +:+ key, None, w))
    (fun _ _ w => (inl (S3.mkHead 0 (Some 0%Z)), w))
    (fun _ _ _ w => (None, w))
    (fun _ _ w => (inl (object_grants w), w))
    (fun _ => 0%Z).

Definition start (w : world) : Remote world S3.call := mkRemote w [].

End S3Mock.

Module OSSMock.

(** The state of the service is the ACL it reports for its objects. *)
Definition sdk : OSS.SDK string :=
  OSS.mkSDK string
    (fun _ w => (inl [], w))
    (fun _ _ _ w => (None, w))
    (fun _ w => (None, w))
    (fun _ w => (None, w))
    (fun _ _ w => (None, w))
    (fun key _ _ _ w => ("https://signed/" +:+ key, None, w))
    (fun _ w => (inl ∅, w))
    (fun _ w => (true, None, w))
    (fun _ _ w => (None, w))
    (fun _ w => (inl w, w))
    (fun _ => (0%Z, None))
    (fun _ => inl 0%Z).

Definition start : Remote string OSS.call := mkRemote "default" [].

End OSSMock.

Definition s3_test : S3.storageS3 := S3.mkS3 "eu-west-1" "bucket".
Definition oss_test : OSS.storageAlibabaOSS :=
  OSS.mkOSS "bucket" "https://oss-eu-west-1.aliyuncs.com".

(** * Properties *)

(** ** Running the state monad *)

Lemma bind_run {S A B} (m : State S A) (k : A -> State S B) (st : S) :
  (m ≫= k) st = k (m st).1 (m st).2.
Proof. unfold mbind, State_bind. by destruct (m st). Qed.

Lemma ret_run {S A} (a : A) (st : S) : (mret a : State S A) st = (a, st).
Proof. reflexivity. Qed.

Lemma request_run {W call A} (f : W -> A * W) (record : A -> call)
    (st : Remote W call) :
  request f record st =
    ((f (service st)).1,
     mkRemote (f (service st)).2 (calls st ++ [record (f (service st)).1])).
Proof. unfold request. by destruct (f (service st)). Qed.

(** ** Visibility translation of the remote backends *)

(** C5: a remote put with a visibility outside the three known values
    returns the validation error at once: the state of the service and
    the list of requests are what they were, so no session was opened. *)
Theorem C5_unknown_visibility_opens_no_session
    {W1 W2 : Type} (env : Env) (sdk : S3.SDK W1) (osdk : OSS.SDK W2)
    (s : S3.storageS3) (objectPath : string) (source : Reader)
    (visibility : ObjectVisibility)
    (st : Remote W1 S3.call) (ost : Remote W2 OSS.call) :
  visibility ≠ ObjectPrivate ->
  visibility ≠ ObjectPublicRead ->
  visibility ≠ ObjectPublicReadWrite ->
  S3.Put env sdk s objectPath source visibility st
    = (Some (fmt_Errorf ("err invalid object visibility: " +:+ visibility)), st)
  ∧ OSS.Put env osdk objectPath source visibility ost
    = (Some (fmt_Errorf ("err invalid object visibility: " +:+ visibility)), ost).
Proof.
  intros Hpriv Hread Hrw.
  apply String.eqb_neq in Hpriv, Hread, Hrw.
  unfold S3.Put, OSS.Put, S3.getS3ACLOrError, OSS.getACLOSSOrError.
  rewrite Hpriv, Hread, Hrw. split; reflexivity.
Qed.

Lemma C5_unknown_visibility_witness :
  S3.Put (test_env linux) S3Mock.sdk s3_test "a.txt" [] "public"
      (S3Mock.start (S3Mock.mkWorld [] None []))
    = (Some (fmt_Errorf ("err invalid object visibility: " +:+ "public")),
       S3Mock.start (S3Mock.mkWorld [] None []))
  ∧ OSS.Put (test_env linux) OSSMock.sdk "a.txt" [] "public" OSSMock.start
    = (Some (fmt_Errorf ("err invalid object visibility: " +:+ "public")),
       OSSMock.start).
Proof.
  apply (C5_unknown_visibility_opens_no_session (test_env linux) S3Mock.sdk
           OSSMock.sdk s3_test "a.txt" [] "public"); discriminate.
Defined.

(** C9: on S3, an object whose ACL gives the all-users group the write
    grant alone, or no grant at all, has [GetVisibility] return the empty
    visibility with a nil error; the OSS backend returns an error for an
    ACL it does not know. *)
Theorem C9_s3_unmapped_acl_returns_empty_visibility_without_error :
  let allUsers := Some "http://acs.amazonaws.com/groups/global/AllUsers" in
  let writeOnly := S3Mock.mkWorld [] None [S3.mkGrant allUsers (Some "WRITE")] in
  let noGrant := S3Mock.mkWorld [] None [] in
  (S3.GetVisibility S3Mock.sdk s3_test "a.txt" (S3Mock.start writeOnly)).1
    = ("", None)
  ∧ (S3.GetVisibility S3Mock.sdk s3_test "a.txt" (S3Mock.start noGrant)).1
    = ("", None)
  ∧ (OSS.GetVisibility (test_env linux) OSSMock.sdk "a.txt" OSSMock.start).1
    = ("", Some (fmt_Errorf "invalid returned ACL value")).
Proof. repeat split; reflexivity. Qed.

(** ** Expiry of signed URLs *)

Lemma int64_small (z : Z) : (- 2 ^ 63 <= z < 2 ^ 63)%Z -> int64 z = z.
Proof.
  intros H. unfold int64.
  rewrite Z.mod_small by lia. lia.
Qed.

(** C10, as the code has it: the S3 backend signs with the larger of the
    requested expiry and 24 hours; the OSS backend takes the larger of
    the requested expiry and one minute and signs with its whole seconds.
    Neither normalises the object path. *)
Theorem C10_temporary_url_expiry_floor
    {W1 W2 : Type} (sdk : S3.SDK W1) (osdk : OSS.SDK W2) (s : S3.storageS3)
    (objectPath : string) (expireIn : Z) (storageResize : option StorageResize)
    (st : Remote W1 S3.call) (ost : Remote W2 OSS.call) :
  (- 2 ^ 63 <= expireIn < 2 ^ 63)%Z ->
  (exists r,
     calls (S3.TemporaryURL sdk s objectPath expireIn storageResize st).2
       = calls st ++ [S3.Presign (S3.bucketName s) objectPath
                        (Z.max expireIn (24 * time.Hour)) r]
     ∧ (S3.TemporaryURL sdk s objectPath expireIn storageResize st).1 = r)
  ∧ (exists r,
     calls (OSS.TemporaryURL osdk objectPath expireIn storageResize ost).2
       = calls ost ++ [OSS.SignURL objectPath "GET"
                         (Z.max expireIn (1 * time.Minute) / time.Second)
                         (ConvertForOss storageResize) r]
     ∧ (OSS.TemporaryURL osdk objectPath expireIn storageResize ost).1 = r).
Proof.
  intros Hrange. split.
  - unfold S3.TemporaryURL. rewrite request_run. simpl.
    replace (if (expireIn <? S3.s3SignedURLExpire)%Z
             then S3.s3SignedURLExpire else expireIn)
      with (Z.max expireIn (24 * time.Hour)).
    + eexists. split; reflexivity.
    + unfold S3.s3SignedURLExpire. destruct (Z.ltb_spec expireIn (24 * time.Hour)); lia.
  - unfold OSS.TemporaryURL. rewrite request_run. simpl.
    assert (Hmax : (if (expireIn <? OSS.ossSignedURLExpire)%Z
                    then OSS.ossSignedURLExpire else expireIn)
                   = Z.max expireIn (1 * time.Minute)).
    { unfold OSS.ossSignedURLExpire.
      destruct (Z.ltb_spec expireIn (1 * time.Minute)); lia. }
    rewrite Hmax.
    assert (Hpos : (0 < Z.max expireIn (1 * time.Minute) < 2 ^ 63)%Z).
    { unfold time.Minute, time.Second, time.Nanosecond. lia. }
    assert (Hs : (0 < time.Second)%Z) by (unfold time.Second, time.Nanosecond; lia).
    rewrite Z.quot_div_nonneg by lia.
    rewrite int64_small.
    + eexists. split; reflexivity.
    + split.
      * pose proof (Z.div_pos (Z.max expireIn (1 * time.Minute)) time.Second). lia.
      * apply Z.div_lt_upper_bound; [lia|].
        unfold time.Second, time.Nanosecond. lia.
Qed.

Lemma C10_temporary_url_expiry_witness :
  (exists r,
     calls (S3.TemporaryURL S3Mock.sdk s3_test "a.txt" 5 None
              (S3Mock.start (S3Mock.mkWorld [] None []))).2
       = [] ++ [S3.Presign "bucket" "a.txt" (Z.max 5 (24 * time.Hour)) r]
     ∧ (S3.TemporaryURL S3Mock.sdk s3_test "a.txt" 5 None
          (S3Mock.start (S3Mock.mkWorld [] None []))).1 = r)
  ∧ (exists r,
     calls (OSS.TemporaryURL OSSMock.sdk "a.txt" 5 None OSSMock.start).2
       = [] ++ [OSS.SignURL "a.txt" "GET"
                  (Z.max 5 (1 * time.Minute) / time.Second)
                  (ConvertForOss None) r]
     ∧ (OSS.TemporaryURL OSSMock.sdk "a.txt" 5 None OSSMock.start).1 = r).
Proof.
  apply (C10_temporary_url_expiry_floor S3Mock.sdk OSSMock.sdk s3_test "a.txt" 5
           None (S3Mock.start (S3Mock.mkWorld [] None [])) OSSMock.start).
  lia.
Defined.

(** C10 as stated fails on the OSS backend: asked for 90.5 seconds, above
    the floor, it signs for 90 seconds. *)
Lemma C10_oss_expiry_is_truncated :
  let requested := (90 * time.Second + 500 * 1000 * 1000)%Z in
  calls (OSS.TemporaryURL OSSMock.sdk "a.txt" requested None OSSMock.start).2
    = [OSS.SignURL "a.txt" "GET" 90 "" ("https://signed/a.txt", None)]
  ∧ (90 * time.Second)%Z ≠ Z.max requested OSS.ossSignedURLExpire.
Proof. split; [reflexivity | discriminate]. Qed.

(** ** The local backend on failing input *)

(** C2: with a source that fails after one byte and a public visibility,
    the local [Put] returns nil and the object has its entry in the public
    tree, on every platform; with the private visibility the error of the
    source is returned. The S3 backend returns the error of the source
    and sends the abort request. *)
Theorem C2_local_put_public_drops_the_read_error (os : GOOS) :
  let source := [(bytes_of "h", None); ([], Some (reader_error "unexpected EOF"))] in
  let env := test_env os in
  let public := Local.Put env getLocalStorage "x.txt" source ObjectPublicRead empty_fs in
  let private := Local.Put env getLocalStorage "x.txt" source ObjectPrivate empty_fs in
  let remote :=
    S3.Put env S3Mock.sdk s3_test "x.txt" source ObjectPublicRead
      (S3Mock.start (S3Mock.mkWorld [] None [])) in
  public.1 = None
  ∧ is_Some (names public.2 !! public_name env getLocalStorage "x.txt")
  ∧ private.1 = Some (reader_error "unexpected EOF")
  ∧ names private.2 !! public_name env getLocalStorage "x.txt" = None
  ∧ remote.1 = Some (reader_error "unexpected EOF")
  ∧ aborts (calls remote.2) = ["upload-1"]
  ∧ completions (calls remote.2) = [].
Proof.
  destruct os; vm_compute; repeat split; eauto.
Qed.

(** C6: on linux, making a key public that has no private entry creates
    the symbolic link all the same: the public tree has an entry whose
    target is not there. Where the link is a hard link the call fails and
    the public tree stays empty. *)
Theorem C6_linux_set_visibility_leaves_dangling_public_entry :
  let linked os :=
    Local.SetVisibility (test_env os) getLocalStorage "ghost" ObjectPublicRead
      empty_fs in
  (linked linux).1 = None
  ∧ names (linked linux).2 !! public_name (test_env linux) getLocalStorage "ghost"
    = Some (Lnk "/srv/app/storage-test/private/ghost")
  ∧ names (linked linux).2 !! private_name (test_env linux) getLocalStorage "ghost"
    = None
  ∧ (linked darwin).1
    = Some (os_LinkError "link" "storage-test/private/ghost"
              "storage-test/public/ghost" OS.ENOENT)
  ∧ names (linked darwin).2 !! public_name (test_env darwin) getLocalStorage "ghost"
    = None.
Proof. vm_compute. repeat split. Qed.

(** ** The dual-tree model of the local backend *)

Section LocalVisibility.
Variable env : Env.
Variable s : Local.storageLocalFile.

Lemma isFileExists_run (path : string) (fs : FS) :
  Local.isFileExists env path fs
  = (bool_decide (is_Some (names fs !! OS.key env path)), fs).
Proof. reflexivity. Qed.

Lemma Remove_present (path : string) (fs : FS) :
  is_Some (names fs !! OS.key env path) ->
  OS.Remove env path fs
  = (None, mkFS (delete (OS.key env path) (names fs)) (inodes fs) (next_ino fs)).
Proof. intros [d Hd]. unfold OS.Remove. by rewrite Hd. Qed.

(** [SetVisibility] with the private visibility removes the public
    entry, if there is one, and nothing else. *)
Lemma SetVisibility_private_run (objectPath : string) (fs : FS) :
  Local.SetVisibility env s objectPath ObjectPrivate fs
  = (None,
     mkFS (delete (public_name env s objectPath) (names fs))
       (inodes fs) (next_ino fs)).
Proof.
  unfold Local.SetVisibility, public_name.
  change (String.eqb ObjectPrivate ObjectPrivate) with true. cbv iota.
  rewrite bind_run, isFileExists_run. cbn [fst snd].
  case_bool_decide as Hex.
  - by apply Remove_present.
  - rewrite ret_run. destruct fs as [ns ino nx]. cbn in *.
    f_equal. f_equal. symmetry. apply delete_id.
    by apply eq_None_not_Some.
Qed.

(** [makeObjectPublic] on a key that has a private entry and no public
    entry: the public entry is created, a symbolic link to the private
    name on linux and a second name of the private file elsewhere. *)
Lemma makeObjectPublic_fresh (objectPath : string) (fs : FS) (d : dirent) :
  names fs !! private_name env s objectPath = Some d ->
  names fs !! public_name env s objectPath = None ->
  exists d',
    Local.makeObjectPublic env s objectPath fs
    = (None,
       mkFS (<[public_name env s objectPath := d']> (names fs))
         (inodes fs) (next_ino fs)).
Proof.
  intros Hpriv Hpub. unfold private_name, public_name in *.
  unfold Local.makeObjectPublic, Local.checkAndCreateParentDirectory,
    Local.mkdirIfNotExists.
  rewrite bind_run, ret_run. cbn [fst snd].
  rewrite bind_run, isFileExists_run. cbn [fst snd].
  rewrite Hpub.
  rewrite bool_decide_eq_false_2 by (intros [? ?]; discriminate).
  rewrite bind_run, ret_run. cbn [fst snd].
  destruct (goos env) eqn:Hos.
  - rewrite bind_run. unfold OS.Symlink at 1 2. rewrite Hpub. cbn [fst snd].
    rewrite ret_run. eauto.
  - unfold OS.Link. rewrite Hpriv, Hpub. eauto.
  - unfold OS.Link. rewrite Hpriv, Hpub. eauto.
Qed.

Lemma SetVisibility_public_run (objectPath : string) (fs : FS) (d : dirent) :
  names fs !! private_name env s objectPath = Some d ->
  exists d',
    Local.SetVisibility env s objectPath ObjectPublicRead fs
    = (None,
       mkFS (<[public_name env s objectPath := d']> (names fs))
         (inodes fs) (next_ino fs)).
Proof.
  intros Hpriv.
  unfold Local.SetVisibility.
  change (String.eqb ObjectPublicRead ObjectPrivate) with false.
  change (String.eqb ObjectPublicRead ObjectPublicRead) with true.
  cbv iota. cbn [orb].
  rewrite bind_run, isFileExists_run. cbn [fst snd].
  fold (public_name env s objectPath).
  destruct (names fs !! public_name env s objectPath) as [d0|] eqn:Hpub.
  - rewrite bool_decide_eq_true_2 by eauto. cbn [negb]. rewrite ret_run.
    exists d0. destruct fs as [ns ino nx]. cbn in *.
    f_equal. f_equal. symmetry. by apply insert_id.
  - rewrite bool_decide_eq_false_2 by (intros [? ?]; discriminate).
    cbn [negb]. by apply (makeObjectPublic_fresh objectPath fs d).
Qed.

Lemma GetVisibility_run (objectPath : string) (fs : FS) :
  Local.GetVisibility env s objectPath fs
  = (if bool_decide (is_Some (names fs !! public_name env s objectPath))
     then (ObjectPublicRead, None)
     else if bool_decide (is_Some (names fs !! private_name env s objectPath))
     then (ObjectPrivate, None)
     else ("", Some (fmt_Errorf
             ("[local-storage] err get visibility, object not found: "
              +:+ objectPath))),
     fs).
Proof.
  unfold Local.GetVisibility, public_name, private_name.
  rewrite bind_run, isFileExists_run. cbn [fst snd].
  case_bool_decide; [reflexivity|].
  rewrite bind_run, isFileExists_run. cbn [fst snd].
  case_bool_decide; reflexivity.
Qed.


End LocalVisibility.


(** C8, as the code has it: for a key that is not empty and a public
    base URL that parses, [URL] fails with the "not found" error exactly
    when the public tree has no entry for the key, and otherwise gives
    the base URL with the key joined to its path; the file system is left
    alone. In the set-up of the tests: after a private put of [x.txt] the
    call fails, after making it public it gives
    [http://localhost:8000/files/x.txt]. *)
Theorem C8_url_requires_public_entry
    (env : Env) (s : Local.storageLocalFile) (objectPath : string)
    (storageResize : option StorageResize) (fs : FS) (u : URL) :
  objectPath ≠ "" ->
  url_Parse env (Local.publicBaseURL s) = inl u ->
  ((Local.URL env s objectPath storageResize fs).1.2 = Some not_found_in_public
     <-> names fs !! public_name env s objectPath = None)
  ∧ (names fs !! public_name env s objectPath = None ->
     Local.URL env s objectPath storageResize fs = ("", Some not_found_in_public, fs))
  ∧ (is_Some (names fs !! public_name env s objectPath) ->
     Local.URL env s objectPath storageResize fs
     = (URL_String env
          (mkURL (Scheme u) (Host u) (Join [Path u; objectPath]) (RawQuery u)),
        None, fs))
  ∧ (forall os,
       let env := test_env os in
       let fs1 := (Local.Put env getLocalStorage "x.txt"
                     (bytesReader 4 (bytes_of "hi")) ObjectPrivate empty_fs).2 in
       let fs2 := (Local.SetVisibility env getLocalStorage "x.txt"
                     ObjectPublicRead fs1).2 in
       (Local.URL env getLocalStorage "x.txt" None fs1).1
         = ("", Some not_found_in_public)
       ∧ (Local.URL env getLocalStorage "x.txt" None fs2).1
         = ("http://localhost:8000/files" +:+ "/" +:+ "x.txt", None)).
Proof.
  intros Hkey Hparse.
  assert (Hrun : Local.URL env s objectPath storageResize fs
    = (if bool_decide (is_Some (names fs !! public_name env s objectPath))
       then (URL_String env
               (mkURL (Scheme u) (Host u) (Join [Path u; objectPath]) (RawQuery u)),
             None)
       else ("", Some not_found_in_public), fs)).
  { unfold Local.URL. apply String.eqb_neq in Hkey. rewrite Hkey.
    rewrite bind_run, isFileExists_run. cbn [fst snd].
    fold (public_name env s objectPath).
    case_bool_decide; cbn [negb]; [by rewrite Hparse | reflexivity]. }
  rewrite Hrun. repeat split.
  - case_bool_decide as Hex; cbn [fst snd]; [discriminate|].
    intros _. by apply eq_None_not_Some.
  - intros Hnone. rewrite Hnone.
    by rewrite bool_decide_eq_false_2 by (intros [? ?]; discriminate).
  - intros Hnone. rewrite Hnone.
    by rewrite bool_decide_eq_false_2 by (intros [? ?]; discriminate).
  - intros Hsome. by rewrite bool_decide_eq_true_2.
  - destruct os; vm_compute; reflexivity.
  - destruct os; vm_compute; reflexivity.
Qed.

Lemma C8_url_requires_public_entry_witness :
  let env := test_env linux in
  let s := getLocalStorage in
  names empty_fs !! public_name env s "x.txt" = None
  ∧ Local.URL env s "x.txt" None empty_fs = ("", Some not_found_in_public, empty_fs).
Proof.
  intros env s.
  destruct (C8_url_requires_public_entry env s "x.txt" None empty_fs
              (mkURL "http" "localhost:8000" "/files" ""))
    as (_ & Hnone & _).
  - discriminate.
  - vm_compute. reflexivity.
  - split; [reflexivity | apply Hnone; reflexivity].
Defined.

(** C8 as stated fails for the empty key: no entry in the public tree,
    and the result is the empty string with a nil error. It also fails
    with a base URL that does not parse: the entry is there and the
    result is the error of the parser. *)
Lemma C8_url_of_empty_key_is_not_an_error :
  let env := test_env linux in
  (names empty_fs !! public_name env getLocalStorage "" = None
   ∧ Local.URL env getLocalStorage "" None empty_fs = ("", None, empty_fs))
  ∧ (let s := Local.NewLocalStorage "storage-test/private" "storage-test/public"
                ":8000/files" None in
     let fs := (Local.Put env s "x.txt" (bytesReader 4 (bytes_of "hi"))
                  ObjectPublicRead empty_fs).2 in
     is_Some (names fs !! public_name env s "x.txt")
     ∧ (Local.URL env s "x.txt" None fs).1
       = ("", Some (url_Error "parse" ":8000/files"))).
Proof. vm_compute. repeat split; eauto. Qed.

(** ** The multipart upload engine *)

Section Multipart.
Context {W : Type}.
Variable env : Env.
Variable sdk : S3.SDK W.
Variable s : S3.storageS3.

Lemma sleep_run (st : Remote W S3.call) :
  request (fun w : W => (tt, w)) (fun _ => pause) st
  = (tt, mkRemote (service st) (calls st ++ [pause])).
Proof. reflexivity. Qed.

(** Two refusals and then an accepted part: three submissions of the
    same input, a pause after each refusal, and the descriptor of the
    part. *)
Lemma uploadMultipart_third_time
    (resp : S3.CreateMultipartUploadOutput) (data : list byte) (partNumber : Z)
    (w0 w1 w2 w3 : W) (cs : list S3.call) (e1 e2 : error) (etag : string) :
  let input := part_input resp data partNumber in
  S3.sdk_UploadPart W sdk input w0 = (inr e1, w1) ->
  S3.sdk_UploadPart W sdk input w1 = (inr e2, w2) ->
  S3.sdk_UploadPart W sdk input w2 = (inl etag, w3) ->
  S3.uploadMultipart sdk resp data partNumber (mkRemote w0 cs)
  = (Some (S3.mkCompletedPart etag partNumber), None,
     mkRemote w3
       (cs ++ [S3.UploadPart input (inr e1); pause;
               S3.UploadPart input (inr e2); pause;
               S3.UploadPart input (inl etag)])).
Proof.
  intros input H0 H1 H2.
  unfold S3.uploadMultipart, S3.maxRetry. fold (part_input resp data partNumber).
  fold input. cbn [S3.uploadPart_attempts]. fold pause.
  rewrite bind_run, request_run. cbn [service calls]. rewrite H0. cbn [fst snd].
  rewrite bind_run, sleep_run. cbn [fst snd service calls].
  rewrite bind_run, request_run. cbn [service calls]. rewrite H1. cbn [fst snd].
  rewrite bind_run, sleep_run. cbn [fst snd service calls].
  rewrite bind_run, request_run. cbn [service calls]. rewrite H2. cbn [fst snd].
  rewrite ret_run. by rewrite <- !app_assoc.
Qed.

(** Three refusals: the last error, and no pause after it. *)
Lemma uploadMultipart_exhausted
    (resp : S3.CreateMultipartUploadOutput) (data : list byte) (partNumber : Z)
    (w0 w1 w2 w3 : W) (cs : list S3.call) (e1 e2 e3 : error) :
  let input := part_input resp data partNumber in
  S3.sdk_UploadPart W sdk input w0 = (inr e1, w1) ->
  S3.sdk_UploadPart W sdk input w1 = (inr e2, w2) ->
  S3.sdk_UploadPart W sdk input w2 = (inr e3, w3) ->
  S3.uploadMultipart sdk resp data partNumber (mkRemote w0 cs)
  = (None, Some e3,
     mkRemote w3
       (cs ++ [S3.UploadPart input (inr e1); pause;
               S3.UploadPart input (inr e2); pause;
               S3.UploadPart input (inr e3)])).
Proof.
  intros input H0 H1 H2.
  unfold S3.uploadMultipart, S3.maxRetry. fold (part_input resp data partNumber).
  fold input. cbn [S3.uploadPart_attempts]. fold pause.
  rewrite bind_run, request_run. cbn [service calls]. rewrite H0. cbn [fst snd].
  rewrite bind_run, sleep_run. cbn [fst snd service calls].
  rewrite bind_run, request_run. cbn [service calls]. rewrite H1. cbn [fst snd].
  rewrite bind_run, sleep_run. cbn [fst snd service calls].
  rewrite bind_run, request_run. cbn [service calls]. rewrite H2. cbn [fst snd].
  rewrite ret_run. by rewrite <- !app_assoc.
Qed.

(** The start of a round of the reading loop that has a chunk to send. *)
Lemma Put_loop_chunk (data : list byte) (er : option error) (source' : Reader)
    (resp : S3.CreateMultipartUploadOutput) (partNumber : Z)
    (completed : list (option S3.CompletedPart)) (st : Remote W S3.call) :
  data ≠ [] -> er = None ∨ er = Some io_EOF ->
  S3.Put_loop sdk ((data, er) :: source') resp partNumber completed st
  = let r := S3.uploadMultipart sdk resp data partNumber st in
    match r.1.2 with
    | Some e =>
        let a := S3.abortMultipartUpload sdk resp r.2 in
        (inr (Some (default e a.1)), a.2)
    | None =>
        S3.Put_loop sdk source' resp (int64 (partNumber + 1))
          (completed ++ [r.1.1]) r.2
    end.
Proof.
  intros Hdata Her. cbn [S3.Put_loop].
  rewrite bool_decide_eq_false_2 by (intros [? ?]; destruct Her; congruence).
  rewrite bool_decide_eq_false_2 by (destruct data; [done | cbn; lia]).
  rewrite bind_run.
  destruct (S3.uploadMultipart sdk resp data partNumber st) as [[c err] st1].
  cbn [fst snd]. destruct err as [e|]; [|reflexivity].
  rewrite bind_run.
  destruct (S3.abortMultipartUpload sdk resp st1) as [[a|] st2]; reflexivity.
Qed.

(** C4, as the code has it: in a round of the reading loop that has a
    chunk to send, two refusals followed by an accepted part make the
    loop go on with the next part number and the descriptor of the part,
    after three submissions and a pause of two seconds after each
    refusal; three refusals make it send the abort request and return the
    last refusal when the abort succeeds, and the error of the abort when
    it fails. Against a service that refuses the first two submissions the
    whole upload of two chunks completes; against one that refuses three
    it returns the third refusal and the session is aborted. *)
Theorem C4_part_submission_is_retried_three_times
    (data : list byte) (er : option error) (source' : Reader)
    (resp : S3.CreateMultipartUploadOutput) (partNumber : Z)
    (completed : list (option S3.CompletedPart)) (w0 : W) (cs : list S3.call) :
  data ≠ [] -> er = None ∨ er = Some io_EOF ->
  let input := part_input resp data partNumber in
  (forall w1 w2 w3 e1 e2 etag,
     S3.sdk_UploadPart W sdk input w0 = (inr e1, w1) ->
     S3.sdk_UploadPart W sdk input w1 = (inr e2, w2) ->
     S3.sdk_UploadPart W sdk input w2 = (inl etag, w3) ->
     S3.Put_loop sdk ((data, er) :: source') resp partNumber completed
       (mkRemote w0 cs)
     = S3.Put_loop sdk source' resp (int64 (partNumber + 1))
         (completed ++ [Some (S3.mkCompletedPart etag partNumber)])
         (mkRemote w3
            (cs ++ [S3.UploadPart input (inr e1); pause;
                    S3.UploadPart input (inr e2); pause;
                    S3.UploadPart input (inl etag)])))
  ∧ (forall w1 w2 w3 w4 e1 e2 e3 a,
     S3.sdk_UploadPart W sdk input w0 = (inr e1, w1) ->
     S3.sdk_UploadPart W sdk input w1 = (inr e2, w2) ->
     S3.sdk_UploadPart W sdk input w2 = (inr e3, w3) ->
     S3.sdk_AbortMultipartUpload W sdk (S3.Bucket resp) (S3.Key resp)
       (S3.UploadId resp) w3 = (a, w4) ->
     S3.Put_loop sdk ((data, er) :: source') resp partNumber completed
       (mkRemote w0 cs)
     = (inr (Some (default e3 a)),
        mkRemote w4
          (cs ++ [S3.UploadPart input (inr e1); pause;
                  S3.UploadPart input (inr e2); pause;
                  S3.UploadPart input (inr e3); abort_call resp a])))
  ∧ (let refuse n := inr (sdk_error ("RequestTimeout " +:+ n)) in
     let run results :=
       S3.Put (test_env linux) S3Mock.sdk s3_test "dir/a.bin"
         (bytesReader 4 (bytes_of "content")) ObjectPublicRead
         (S3Mock.start (S3Mock.mkWorld results None [])) in
     ((run [refuse "1"; refuse "2"]).1 = None
      ∧ completions (calls (run [refuse "1"; refuse "2"]).2)
        = [[Some (S3.mkCompletedPart "etag" 1); Some (S3.mkCompletedPart "etag" 2)]]
      ∧ aborts (calls (run [refuse "1"; refuse "2"]).2) = [])
     ∧ ((run [refuse "1"; refuse "2"; refuse "3"]).1
        = Some (sdk_error "RequestTimeout 3")
        ∧ completions (calls (run [refuse "1"; refuse "2"; refuse "3"]).2) = []
        ∧ aborts (calls (run [refuse "1"; refuse "2"; refuse "3"]).2)
          = ["upload-1"])).
Proof.
  intros Hdata Her input. split; [|split].
  - intros w1 w2 w3 e1 e2 etag H0 H1 H2.
    rewrite Put_loop_chunk by done.
    by rewrite (uploadMultipart_third_time resp data partNumber w0 w1 w2 w3 cs
                  e1 e2 etag H0 H1 H2).
  - intros w1 w2 w3 w4 e1 e2 e3 a H0 H1 H2 Ha.
    rewrite Put_loop_chunk by done.
    rewrite (uploadMultipart_exhausted resp data partNumber w0 w1 w2 w3 cs
               e1 e2 e3 H0 H1 H2).
    cbn [fst snd]. unfold S3.abortMultipartUpload.
    rewrite request_run. cbn [service calls]. rewrite Ha. cbn [fst snd].
    unfold abort_call. by rewrite <- !app_assoc.
  - vm_compute. repeat split.
Qed.

End Multipart.

Lemma C4_part_submission_witness :
  let resp := S3.mkCreateOutput "bucket" "dir/a.bin" "upload-1" in
  let data := bytes_of "cont" in
  let input := part_input resp data 1 in
  let e1 := sdk_error "RequestTimeout 1" in
  let e2 := sdk_error "RequestTimeout 2" in
  let e3 := sdk_error "RequestTimeout 3" in
  let a := Some (sdk_error "abort refused") in
  S3.Put_loop S3Mock.sdk [(data, None)] resp 1 []
    (mkRemote (S3Mock.mkWorld [inr e1; inr e2] None []) [])
  = S3.Put_loop S3Mock.sdk [] resp (int64 (1 + 1))
      ([] ++ [Some (S3.mkCompletedPart "etag" 1)])
      (mkRemote (S3Mock.mkWorld [] None [])
         ([] ++ [S3.UploadPart input (inr e1); pause;
                 S3.UploadPart input (inr e2); pause;
                 S3.UploadPart input (inl "etag")]))
  ∧ S3.Put_loop S3Mock.sdk [(data, None)] resp 1 []
      (mkRemote (S3Mock.mkWorld [inr e1; inr e2; inr e3] a []) [])
    = (inr (Some (default e3 a)),
       mkRemote (S3Mock.mkWorld [] a [])
         ([] ++ [S3.UploadPart input (inr e1); pause;
                 S3.UploadPart input (inr e2); pause;
                 S3.UploadPart input (inr e3); abort_call resp a])).
Proof.
  intros resp data input e1 e2 e3 a. split.
  - eapply (C4_part_submission_is_retried_three_times S3Mock.sdk data None []
              resp 1 [] (S3Mock.mkWorld [inr e1; inr e2] None []) []);
      [discriminate | by left | reflexivity | reflexivity | reflexivity].
  - eapply (C4_part_submission_is_retried_three_times S3Mock.sdk data None []
              resp 1 [] (S3Mock.mkWorld [inr e1; inr e2; inr e3] a []) []);
      [discriminate | by left | reflexivity | reflexivity | reflexivity
      | reflexivity].
Defined.

(** C4 as stated fails when the abort request fails as well: the caller
    gets the error of the abort, not the last refusal of the part. *)
Lemma C4_failed_abort_hides_the_submission_error :
  let refuse n := inr (sdk_error ("RequestTimeout " +:+ n)) in
  let r :=
    S3.Put (test_env linux) S3Mock.sdk s3_test "dir/a.bin"
      (bytesReader 4 (bytes_of "content")) ObjectPublicRead
      (S3Mock.start
         (S3Mock.mkWorld [refuse "1"; refuse "2"; refuse "3"]
            (Some (sdk_error "abort refused")) [])) in
  r.1 = Some (sdk_error "abort refused")
  ∧ r.1 ≠ Some (sdk_error "RequestTimeout 3")
  ∧ uploads_ok (calls r.2) = [].
Proof. vm_compute. repeat split. discriminate. Qed.

(** ** The trace of a multipart upload *)

Lemma uploads_ok_app (cs1 cs2 : list S3.call) :
  uploads_ok (cs1 ++ cs2) = uploads_ok cs1 ++ uploads_ok cs2.
Proof.
  induction cs1 as [|c cs1 IH]; [done|].
  destruct c as [| | ? [?|?] | | | | | | | | | |]; cbn; by rewrite ?IH.
Qed.

Lemma uploads_app (cs1 cs2 : list S3.call) :
  uploads (cs1 ++ cs2) = uploads cs1 ++ uploads cs2.
Proof.
  induction cs1 as [|c cs1 IH]; [done|]. destruct c; cbn; by rewrite ?IH.
Qed.

Lemma completions_app (cs1 cs2 : list S3.call) :
  completions (cs1 ++ cs2) = completions cs1 ++ completions cs2.
Proof.
  induction cs1 as [|c cs1 IH]; [done|]. destruct c; cbn; by rewrite ?IH.
Qed.

Lemma aborts_app (cs1 cs2 : list S3.call) :
  aborts (cs1 ++ cs2) = aborts cs1 ++ aborts cs2.
Proof.
  induction cs1 as [|c cs1 IH]; [done|]. destruct c; cbn; by rewrite ?IH.
Qed.

Section MultipartTrace.
Context {W : Type}.
Variable env : Env.
Variable sdk : S3.SDK W.
Variable s : S3.storageS3.

(** What the submissions of one part leave in the trace. *)
Lemma uploadPart_attempts_trace (left : nat) (input : S3.UploadPartInput)
    (partNumber : Z) (st : Remote W S3.call) :
  exists new,
    calls (S3.uploadPart_attempts sdk left input partNumber st).2 = calls st ++ new
    ∧ Forall (eq input) (uploads new)
    ∧ completions new = [] ∧ aborts new = []
    ∧ Forall (fun c => S3_call_keys c = []) new
    ∧ match (S3.uploadPart_attempts sdk left input partNumber st).1 with
      | (Some part, None) =>
          uploads_ok new = [(input, S3.ETag part)] ∧ S3.PartNumber part = partNumber
      | (None, Some _) => uploads_ok new = []
      | (None, None) => left = 0%nat
      | (Some _, Some _) => False
      end.
Proof.
  revert st. induction left as [|left IH]; intros st.
  - exists []. cbn. rewrite app_nil_r. repeat split; constructor.
  - cbn [S3.uploadPart_attempts]. rewrite bind_run, request_run. cbn [fst snd].
    destruct (S3.sdk_UploadPart W sdk input (service st)) as [[etag|err] w'].
    + exists [S3.UploadPart input (inl etag)]. cbn. repeat split; repeat constructor.
    + cbn [fst snd]. destruct left as [|left'].
      * exists [S3.UploadPart input (inr err)]. cbn.
        repeat split; repeat constructor.
      * rewrite bind_run, request_run. cbn [fst snd service calls].
        set (st1 := mkRemote w'
                      ((calls st ++ [S3.UploadPart input (inr err)])
                       ++ [S3.Sleep (time.Second * 2)])).
        destruct (IH st1) as (new & Hcalls & Hup & Hcomp & Hab & Hkeys & Hres).
        exists ([S3.UploadPart input (inr err); S3.Sleep (time.Second * 2)] ++ new).
        destruct (S3.uploadPart_attempts sdk (S left') input partNumber st1)
          as [[[part|] [e|]] st2]; cbn [fst snd] in *; try done;
          rewrite Hcalls; subst st1; cbn [calls]; rewrite <- !app_assoc;
          cbn [app];
          (repeat split; try done; try (by repeat constructor); cbn; tauto).
Qed.

(** What the reading loop leaves in the trace: the accepted parts carry
    consecutive numbers and the chunks in the order they were read, no
    part is empty, and the list of descriptors grows in that order. *)
Lemma Put_loop_trace (source : Reader) :
  forall (resp : S3.CreateMultipartUploadOutput) (partNumber : Z)
    (completed : list (option S3.CompletedPart)) (st : Remote W S3.call),
  exists new,
    calls (S3.Put_loop sdk source resp partNumber completed st).2 = calls st ++ new
    ∧ ((1 <= partNumber)%Z ->
       (partNumber + Z.of_nat (length source) < 2 ^ 63)%Z ->
       consecutive_from partNumber (part_numbers (uploads_ok new)))
    ∧ Forall (fun input => S3.part_Body input ≠ []) (uploads new)
    ∧ completions new = []
    ∧ Forall (fun c => S3_call_keys c = []) new
    ∧ part_bodies (uploads_ok new) `prefix_of` chunks_read source
    ∧ match (S3.Put_loop sdk source resp partNumber completed st).1 with
      | inl parts =>
          parts = completed ++ map descriptor (uploads_ok new)
          ∧ part_bodies (uploads_ok new) = chunks_read source
          ∧ aborts new = []
      | inr e => e ≠ None ∧ aborts new = [S3.UploadId resp]
      end.
Proof.
  induction source as [|[data er] source' IH]; intros resp pn completed st.
  - exists []. cbn. rewrite !app_nil_r.
    repeat split; first [done | apply Forall_nil_2 | apply prefix_nil].
  - cbn [S3.Put_loop chunks_read].
    case_bool_decide as Herr.
    { (* the read failed *)
      rewrite bind_run. unfold S3.abortMultipartUpload. rewrite request_run.
      cbn [fst snd].
      destruct (S3.sdk_AbortMultipartUpload W sdk _ _ _ (service st)) as [a w'].
      exists [abort_call resp a]. cbn [fst snd].
      assert (Hcalls : forall r : (list (option S3.CompletedPart) + option error),
        calls ((mret r : State (Remote W S3.call) _)
                 (mkRemote w' (calls st ++ [abort_call resp a]))).2
        = calls st ++ [abort_call resp a]) by done.
      destruct a as [e|]; rewrite ret_run; cbn [fst snd calls];
        (repeat split; try done; try (by repeat constructor);
         try apply prefix_nil; by destruct Herr). }
    case_bool_decide as Hempty.
    { (* an empty read ends the loop *)
      destruct data; [|cbn in Hempty; lia].
      exists []. rewrite ret_run. cbn. rewrite !app_nil_r.
      repeat split; first [done | apply Forall_nil_2 | apply prefix_nil]. }
    assert (Hdata : data ≠ []) by (intros ->; cbn in Hempty; lia).
    rewrite bind_run. unfold S3.uploadMultipart.
    fold (part_input resp data pn).
    destruct (uploadPart_attempts_trace S3.maxRetry (part_input resp data pn) pn st)
      as (new1 & Hcalls1 & Hup1 & Hcomp1 & Hab1 & Hkeys1 & Hres1).
    destruct (S3.uploadPart_attempts sdk S3.maxRetry (part_input resp data pn) pn st)
      as [[c err] st1].
    cbn [fst snd] in *.
    assert (Hbody1 : Forall (fun input => S3.part_Body input ≠ []) (uploads new1)).
    { eapply Forall_impl; [exact Hup1|]. by intros ? <-. }
    destruct err as [e|].
    + (* the part was refused: abort *)
      assert (Hok1 : uploads_ok new1 = []) by (by destruct c).
      rewrite bind_run. unfold S3.abortMultipartUpload. rewrite request_run.
      cbn [fst snd].
      destruct (S3.sdk_AbortMultipartUpload W sdk _ _ _ (service st1)) as [a w'].
      exists (new1 ++ [abort_call resp a]). cbn [fst snd].
      rewrite uploads_ok_app, uploads_app, completions_app, aborts_app,
        Hok1, Hcomp1, Hab1.
      destruct a as [e'|]; rewrite ret_run; cbn [fst snd calls];
        rewrite Hcalls1, <- app_assoc;
        (repeat split; try done; try apply prefix_nil;
         try (by rewrite app_nil_r);
         try (apply Forall_app; split; by repeat constructor)).
    + (* the part was accepted: next round *)
      destruct c as [part|]; [|discriminate Hres1].
      destruct Hres1 as [Hok1 Hnum].
      destruct (IH resp (int64 (pn + 1)) (completed ++ [Some part]) st1)
        as (new2 & Hcalls2 & Hcons2 & Hbody2 & Hcomp2 & Hkeys2 & Hpre2 & Hres2).
      exists (new1 ++ new2).
      rewrite uploads_ok_app, uploads_app, completions_app, Hok1, Hcomp1, Hcomp2.
      rewrite Hcalls2, Hcalls1, <- app_assoc.
      destruct data as [|b data]; [done|].
      split; [done|].
      split.
      { intros Hpn Hlen. cbn [length] in Hlen. split; [done|].
        rewrite <- (int64_small (pn + 1)) by lia.
        apply Hcons2; rewrite int64_small; lia. }
      split; [by apply Forall_app|]. split; [done|].
      split; [by apply Forall_app|].
      split; [cbn; by apply prefix_cons|].
      destruct (S3.Put_loop sdk source' resp (int64 (pn + 1)) (completed ++ [Some part]) st1)
        as [[parts|e] st2]; cbn [fst] in *.
      * destruct Hres2 as (-> & Hchunks & Hab2).
        rewrite aborts_app, Hab1, Hab2.
        split; [|split; [|done]].
        -- rewrite <- app_assoc. cbn. unfold descriptor at 2. cbn.
           destruct part as [etag n]. cbn in Hnum. by subst n.
        -- cbn. by rewrite <- Hchunks.
      * by rewrite aborts_app, Hab1.
Qed.

End MultipartTrace.

Lemma no_keys_concat {C : Type} (keys : C -> list string) (cs : list C) :
  Forall (fun c => keys c = []) cs -> concat (map keys cs) = [].
Proof.
  induction 1 as [|c cs Hc _ IH]; [done|]. cbn. by rewrite Hc, IH.
Qed.

Section MultipartPut.
Context {W : Type}.
Variable env : Env.
Variable sdk : S3.SDK W.
Variable s : S3.storageS3.

(** The trace of a whole [Put]. *)
Lemma Put_trace (objectPath : string) (source : Reader)
    (visibility : ObjectVisibility) (st : Remote W S3.call) :
  exists new,
    calls (S3.Put env sdk s objectPath source visibility st).2 = calls st ++ new
    ∧ ((Z.of_nat (length source) < 2 ^ 63 - 1)%Z ->
       consecutive_from 1 (part_numbers (uploads_ok new)))
    ∧ Forall (fun input => S3.part_Body input ≠ []) (uploads new)
    ∧ part_bodies (uploads_ok new) `prefix_of` chunks_read source
    ∧ (forall parts, parts ∈ completions new ->
         parts = map descriptor (uploads_ok new))
    ∧ ((S3.Put env sdk s objectPath source visibility st).1 = None ->
       completions new = [map descriptor (uploads_ok new)]
       ∧ part_bodies (uploads_ok new) = chunks_read source
       ∧ aborts new = [])
    ∧ Forall (eq (S3.cleanS3ObjectPath env objectPath))
        (concat (map S3_call_keys new)).
Proof.
  unfold S3.Put.
  destruct (S3.getS3ACLOrError visibility) as [acl|err].
  2:{ exists []. rewrite ret_run. cbn. rewrite app_nil_r.
      repeat split; first [done | apply Forall_nil_2 | apply prefix_nil
                          | by intros ? ?%elem_of_nil]. }
  rewrite bind_run. cbn [fst snd].
  set (input := S3.mkCreateInput acl (S3.bucketName s)
                  (S3.cleanS3ObjectPath env objectPath) _).
  rewrite bind_run, request_run. cbn [fst snd].
  destruct (S3.sdk_CreateMultipartUpload W sdk input (service st))
    as [[createdResp|err] w1]; cbn [fst snd].
  2:{ exists [S3.CreateMultipartUpload input (inr err)]. rewrite ret_run. cbn.
      repeat split; first [done | apply Forall_nil_2 | apply prefix_nil
                          | by intros ? ?%elem_of_nil | by repeat constructor]. }
  set (created := S3.CreateMultipartUpload input (inl createdResp)).
  set (st1 := mkRemote w1 (calls st ++ [created])).
  rewrite bind_run.
  destruct (Put_loop_trace sdk source createdResp 1 [] st1)
    as (new & Hcalls & Hcons & Hbody & Hcomp & Hkeys & Hpre & Hres).
  destruct (S3.Put_loop sdk source createdResp 1 [] st1) as [[parts|e] st2];
    cbn [fst snd] in *.
  - destruct Hres as (-> & Hchunks & Hab).
    rewrite bind_run, request_run. cbn [fst snd app].
    set (cinput := S3.mkCompleteInput _ _ _ _).
    destruct (S3.sdk_CompleteMultipartUpload W sdk cinput (service st2))
      as [r w3]; cbn [fst snd].
    exists ([created] ++ new ++ [S3.CompleteMultipartUpload cinput r]).
    assert (Hc : forall (e : option error),
      calls ((mret e : State (Remote W S3.call) _)
               (mkRemote w3 (calls st2 ++ [S3.CompleteMultipartUpload cinput r]))).2
      = calls st ++ [created] ++ new ++ [S3.CompleteMultipartUpload cinput r]).
    { intros e. rewrite ret_run. cbn [snd calls]. rewrite Hcalls. subst st1.
      cbn [calls]. by rewrite <- !app_assoc. }
    assert (Hok : uploads_ok ([created] ++ new ++ [S3.CompleteMultipartUpload cinput r])
                  = uploads_ok new).
    { rewrite !uploads_ok_app. cbn. by rewrite app_nil_r. }
    assert (Hcs : completions ([created] ++ new ++ [S3.CompleteMultipartUpload cinput r])
                  = [map descriptor (uploads_ok new)]).
    { rewrite !completions_app, Hcomp. reflexivity. }
    rewrite Hok, Hcs.
    assert (Hrest :
      (Z.of_nat (length source) < 2 ^ 63 - 1 ->
         consecutive_from 1 (part_numbers (uploads_ok new)))%Z
      ∧ Forall (fun input => S3.part_Body input ≠ [])
          (uploads ([created] ++ new ++ [S3.CompleteMultipartUpload cinput r]))
      ∧ part_bodies (uploads_ok new) `prefix_of` chunks_read source
      ∧ (forall parts, parts ∈ [map descriptor (uploads_ok new)] ->
           parts = map descriptor (uploads_ok new))
      ∧ aborts ([created] ++ new ++ [S3.CompleteMultipartUpload cinput r]) = []
      ∧ Forall (eq (S3.cleanS3ObjectPath env objectPath))
          (concat (map S3_call_keys
             ([created] ++ new ++ [S3.CompleteMultipartUpload cinput r])))).
    { split; [intros; apply Hcons; lia|].
      split; [rewrite !uploads_app; cbn; by rewrite app_nil_r|].
      split; [done|].
      split; [by intros ? ->%list_elem_of_singleton|].
      split; [rewrite !aborts_app, Hab; reflexivity|].
      rewrite !map_app, !concat_app, (no_keys_concat _ _ Hkeys). cbn.
      by repeat constructor. }
    destruct Hrest as (H1 & H2 & H3 & H4 & H5 & H6).
    destruct r as [out|err]; rewrite Hc; repeat split; done.
  - destruct Hres as [He Hab].
    exists ([created] ++ new). rewrite ret_run. cbn [fst snd].
    rewrite Hcalls. subst st1. cbn [calls]. rewrite <- app_assoc.
    rewrite uploads_ok_app, uploads_app, completions_app, Hcomp. cbn [app].
    split; [done|].
    split; [intros; apply Hcons; lia|].
    split; [done|]. split; [done|].
    split; [by intros ? ?%elem_of_nil|].
    split; [done|].
    cbn [map concat]. rewrite (no_keys_concat _ _ Hkeys). cbn.
    by repeat constructor.
Qed.

End MultipartPut.

(** ** A byte slice read through the part buffer *)

Lemma bytesReader_reads_cons (size fuel : nat) (data : list byte) :
  data ≠ [] ->
  bytesReader_reads size (S fuel) data
  = (take size data, None) :: bytesReader_reads size fuel (drop size data).
Proof. by destruct data. Qed.

Lemma bytesReader_reads_length (size fuel : nat) (data : list byte) :
  length (bytesReader_reads size fuel data) <= fuel.
Proof.
  revert data. induction fuel as [|fuel IH]; intros data; [done|].
  destruct data as [|b data]; [cbn; lia|].
  rewrite bytesReader_reads_cons by done. cbn [length].
  specialize (IH (drop size (b :: data))). lia.
Qed.

Lemma bytesReader_reads_benign (size fuel : nat) (data : list byte) :
  Forall (fun r : list byte * option error => r.2 = None ∨ r.2 = Some io_EOF)
    (bytesReader_reads size fuel data).
Proof.
  revert data. induction fuel as [|fuel IH]; intros data; [constructor|].
  destruct data as [|b data].
  - cbn. constructor; [by right | constructor].
  - rewrite bytesReader_reads_cons by done. constructor; [by left | apply IH].
Qed.

Lemma chunks_read_cons (data : list byte) (source : Reader) :
  data ≠ [] -> chunks_read ((data, None) :: source) = data :: chunks_read source.
Proof.
  intros Hdata. cbn [chunks_read].
  rewrite bool_decide_eq_false_2 by (by intros [? _]).
  by destruct data.
Qed.

Lemma chunks_read_end (size fuel : nat) :
  chunks_read (bytesReader_reads size fuel []) = [].
Proof. by destruct fuel. Qed.

(** A slice longer than two buffers and not longer than three is read
    in three chunks. *)
Lemma bytesReader_three_chunks (size : nat) (data : list byte) :
  2 * size < length data <= 3 * size ->
  chunks_read (bytesReader size data)
  = [take size data; take size (drop size data); drop (2 * size) data].
Proof.
  intros Hlen. unfold bytesReader.
  assert (Hsize : 0 < size) by lia.
  destruct (length data) as [|[|[|n]]] eqn:Hn; try lia.
  assert (Hne : forall l : list byte, 0 < length l -> l ≠ [])
    by (intros [|] ?; [cbn in *; lia | done]).
  assert (Htake : forall l : list byte, 0 < length l -> take size l ≠ []).
  { intros l Hl. apply Hne. rewrite length_take. lia. }
  rewrite bytesReader_reads_cons by (apply Hne; lia).
  rewrite chunks_read_cons by (apply Htake; lia).
  rewrite bytesReader_reads_cons by (apply Hne; rewrite length_drop; lia).
  rewrite chunks_read_cons by (apply Htake; rewrite length_drop; lia).
  rewrite bytesReader_reads_cons
    by (apply Hne; rewrite !length_drop; lia).
  rewrite chunks_read_cons by (apply Htake; rewrite !length_drop; lia).
  assert (Hend : drop size (drop size (drop size data)) = []).
  { apply nil_length_inv. rewrite !length_drop. lia. }
  rewrite Hend, chunks_read_end.
  rewrite (take_ge (drop size (drop size data)))
    by (rewrite !length_drop; lia).
  rewrite drop_drop. by replace (size + size) with (2 * size) by lia.
Qed.

(** The service of the examples accepts every part once its list of
    refusals is used up: a [Put] from a reader that does not fail, with a
    known visibility, returns nil. *)
Lemma Put_loop_reliable (source : Reader) :
  forall (resp : S3.CreateMultipartUploadOutput) (partNumber : Z)
    (completed : list (option S3.CompletedPart)) (cs : list S3.call)
    (grants : list S3.Grant),
  Forall (fun r : list byte * option error => r.2 = None ∨ r.2 = Some io_EOF)
    source ->
  exists parts cs',
    S3.Put_loop S3Mock.sdk source resp partNumber completed
      (mkRemote (S3Mock.mkWorld [] None grants) cs)
    = (inl parts, mkRemote (S3Mock.mkWorld [] None grants) cs').
Proof.
  induction source as [|[data er] source IH];
    intros resp pn completed cs grants Hsrc; [by eexists _, _|].
  apply Forall_cons in Hsrc as [Her Hsrc]. cbn [snd] in Her.
  destruct data as [|b data].
  - cbn [S3.Put_loop].
    rewrite bool_decide_eq_false_2 by (intros [? ?]; destruct Her; congruence).
    rewrite bool_decide_eq_true_2 by (cbn; lia). by eexists _, _.
  - rewrite Put_loop_chunk by done.
    change (S3.uploadMultipart S3Mock.sdk resp (b :: data) pn
              (mkRemote (S3Mock.mkWorld [] None grants) cs))
      with (Some (S3.mkCompletedPart "etag" pn), (None : option error),
            mkRemote (S3Mock.mkWorld [] None grants)
              (cs ++ [S3.UploadPart (part_input resp (b :: data) pn) (inl "etag")])).
    cbn [fst snd]. by apply IH.
Qed.

Lemma Put_reliable (env : Env) (s : S3.storageS3) (objectPath : string)
    (source : Reader) (grants : list S3.Grant) :
  Forall (fun r : list byte * option error => r.2 = None ∨ r.2 = Some io_EOF)
    source ->
  (S3.Put env S3Mock.sdk s objectPath source ObjectPublicRead
     (S3Mock.start (S3Mock.mkWorld [] None grants))).1 = None.
Proof.
  intros Hsrc. unfold S3.Put.
  change (S3.getS3ACLOrError ObjectPublicRead) with
    (inl S3.BucketCannedACLPublicRead : string + error).
  cbv beta iota.
  rewrite bind_run. cbn [fst snd].
  rewrite bind_run, request_run. cbn [fst snd S3Mock.sdk S3.sdk_CreateMultipartUpload
    S3Mock.start service calls].
  rewrite bind_run.
  match goal with
  | |- context [S3.Put_loop S3Mock.sdk source ?resp 1 [] (mkRemote _ ?cs)] =>
      destruct (Put_loop_reliable source resp 1 [] cs grants Hsrc)
        as (parts & cs' & ->)
  end.
  cbn [fst snd]. rewrite bind_run, request_run. reflexivity.
Qed.

(** C3: in the trace of a remote [Put], the accepted parts carry the
    numbers 1, 2, 3, ... without a gap, in the order the chunks were
    read; no submitted part is empty; a completion request carries the
    descriptors (number and tag) of the accepted parts in that order, and
    a [Put] that returns nil has sent exactly one, for every chunk read.
    The stream is shorter than the range of the 64-bit part counter. A
    slice of more than two and at most three part sizes, such as 12 MB
    or 12 MiB against 5 MiB, is completed as the parts 1, 2, 3. *)
Theorem C3_parts_are_numbered_in_submission_order
    {W : Type} (env : Env) (sdk : S3.SDK W) (s : S3.storageS3)
    (objectPath : string) (visibility : ObjectVisibility)
    (st : Remote W S3.call) :
  (forall source : Reader,
     (Z.of_nat (length source) < 2 ^ 63 - 1)%Z ->
     exists new,
       calls (S3.Put env sdk s objectPath source visibility st).2 = calls st ++ new
       ∧ consecutive_from 1 (part_numbers (uploads_ok new))
       ∧ Forall (fun input => S3.part_Body input ≠ []) (uploads new)
       ∧ part_bodies (uploads_ok new) `prefix_of` chunks_read source
       ∧ (forall parts, parts ∈ completions new ->
            parts = map descriptor (uploads_ok new))
       ∧ ((S3.Put env sdk s objectPath source visibility st).1 = None ->
          completions new = [map descriptor (uploads_ok new)]
          ∧ part_bodies (uploads_ok new) = chunks_read source))
  ∧ (forall data : list byte,
       (2 * S3.s3PartSize < Z.of_nat (length data) <= 3 * S3.s3PartSize)%Z ->
       let size := Z.to_nat S3.s3PartSize in
       let r := S3.Put env sdk s objectPath (bytesReader size data) visibility st in
       r.1 = None ->
       exists new tag1 tag2 tag3,
         calls r.2 = calls st ++ new
         ∧ part_numbers (uploads_ok new) = [1; 2; 3]%Z
         ∧ part_bodies (uploads_ok new)
           = [take size data; take size (drop size data); drop (2 * size) data]
         ∧ completions new
           = [[Some (S3.mkCompletedPart tag1 1); Some (S3.mkCompletedPart tag2 2);
               Some (S3.mkCompletedPart tag3 3)]])
  ∧ (2 * S3.s3PartSize < 12 * 1000 * 1000 <= 3 * S3.s3PartSize)%Z
  ∧ (2 * S3.s3PartSize < 12 * 1024 * 1024 <= 3 * S3.s3PartSize)%Z.
Proof.
  split; [|split; [|split; [unfold S3.s3PartSize; lia | unfold S3.s3PartSize; lia]]].
  - intros source Hlen.
    destruct (Put_trace env sdk s objectPath source visibility st)
      as (new & Hcalls & Hcons & Hbody & Hpre & Hcomp & Hok & _).
    exists new. repeat split; try done; try (by apply Hcons); by apply Hok.
  - intros data Hdata size r Hr.
    assert (Hsize : Z.of_nat size = S3.s3PartSize).
    { subst size. by rewrite Z2Nat.id. }
    clearbody size.
    assert (Hchunks : chunks_read (bytesReader size data)
      = [take size data; take size (drop size data); drop (2 * size) data]).
    { apply bytesReader_three_chunks. lia. }
    destruct (Put_trace env sdk s objectPath (bytesReader size data) visibility st)
      as (new & Hcalls & Hcons & _ & _ & _ & Hok & _).
    fold r in Hcalls, Hok. destruct (Hok Hr) as (Hcomp & Hbodies & _).
    rewrite Hchunks in Hbodies.
    assert (Hnum : consecutive_from 1 (part_numbers (uploads_ok new))).
    { apply Hcons.
      pose proof (bytesReader_reads_length size (S (length data)) data) as Hl.
      fold (bytesReader size data) in Hl. unfold S3.s3PartSize in Hdata. lia. }
    destruct (uploads_ok new) as [|[i1 t1] [|[i2 t2] [|[i3 t3] [|]]]] eqn:Hparts;
      try discriminate Hbodies.
    exists new, t1, t2, t3. rewrite Hparts.
    cbn in Hnum. destruct Hnum as (H1 & H2 & H3 & _).
    split; [done|]. split; [cbn; by rewrite H1, H2, H3|]. split; [done|].
    rewrite Hcomp. cbn. unfold descriptor. cbn. by rewrite H1, H2, H3.
Qed.

Lemma C3_parts_are_numbered_witness :
  let env := test_env linux in
  let st := S3Mock.start (S3Mock.mkWorld [] None []) in
  let small := bytesReader 4 (bytes_of "content") in
  let data := replicate (Z.to_nat (12 * 1000 * 1000)) "000"%byte in
  let size := Z.to_nat S3.s3PartSize in
  let r := S3.Put env S3Mock.sdk s3_test "dir/a.bin" (bytesReader size data)
             ObjectPublicRead st in
  (exists new,
     calls (S3.Put env S3Mock.sdk s3_test "dir/a.bin" small ObjectPublicRead st).2
       = calls st ++ new
     ∧ consecutive_from 1 (part_numbers (uploads_ok new))
     ∧ Forall (fun input => S3.part_Body input ≠ []) (uploads new)
     ∧ part_bodies (uploads_ok new) `prefix_of` chunks_read small
     ∧ (forall parts, parts ∈ completions new ->
          parts = map descriptor (uploads_ok new))
     ∧ ((S3.Put env S3Mock.sdk s3_test "dir/a.bin" small ObjectPublicRead st).1
          = None ->
        completions new = [map descriptor (uploads_ok new)]
        ∧ part_bodies (uploads_ok new) = chunks_read small))
  ∧ (exists new tag1 tag2 tag3,
       calls r.2 = calls st ++ new
       ∧ part_numbers (uploads_ok new) = [1; 2; 3]%Z
       ∧ part_bodies (uploads_ok new)
         = [take size data; take size (drop size data); drop (2 * size) data]
       ∧ completions new
         = [[Some (S3.mkCompletedPart tag1 1); Some (S3.mkCompletedPart tag2 2);
             Some (S3.mkCompletedPart tag3 3)]]).
Proof.
  intros env st small data size r.
  destruct (C3_parts_are_numbered_in_submission_order env S3Mock.sdk s3_test
              "dir/a.bin" ObjectPublicRead st) as (Hgeneral & Hslice & _).
  split.
  - apply Hgeneral. vm_compute. reflexivity.
  - apply Hslice.
    + subst data. rewrite length_replicate, Z2Nat.id by lia.
      unfold S3.s3PartSize. lia.
    + apply Put_reliable, bytesReader_reads_benign.
Defined.

(** ** The path normaliser *)

Section PathElements.
Import GoPath.

Lemma split_slash_cons (str : string) :
  exists x r, split_slash str = x :: r.
Proof.
  destruct str as [|c str]; cbn; [by eexists _, _|].
  destruct (Ascii.eqb c "/"); [by eexists _, _|].
  destruct (split_slash str); by eexists _, _.
Qed.

Lemma split_slash_app (a b : string) :
  split_slash (a +:+ "/" +:+ b) = split_slash a ++ split_slash b.
Proof.
  change (split_slash (a +:+ String "/"%char b) = split_slash a ++ split_slash b).
  induction a as [|c a IH]; [reflexivity|].
  change (split_slash (String c (a +:+ String "/"%char b))
          = split_slash (String c a) ++ split_slash b).
  cbn [split_slash].
  destruct (Ascii.eqb c "/"); [by rewrite IH|].
  rewrite IH. destruct (split_slash_cons a) as (x & r & ->). reflexivity.
Qed.

Lemma split_slash_free (x : string) :
  slash_free x = true -> split_slash x = [x].
Proof.
  induction x as [|c x IH]; [done|]. cbn. intros [Hc Hx]%andb_prop.
  apply negb_true_iff in Hc. rewrite Hc, (IH Hx). reflexivity.
Qed.

Lemma split_slash_elems_free (str : string) :
  Forall (fun x => slash_free x = true) (split_slash str).
Proof.
  induction str as [|c str IH]; [by repeat constructor|].
  cbn. destruct (Ascii.eqb c "/") eqn:Hc; [by constructor|].
  destruct (split_slash_cons str) as (x & r & Hs). rewrite Hs in *.
  apply Forall_cons in IH as [Hx Hr].
  constructor; [|done]. cbn. by rewrite Hc, Hx.
Qed.

Lemma split_join_slash (l : list string) :
  Forall (fun x => slash_free x = true) l -> l ≠ [] ->
  split_slash (join_slash l) = l.
Proof.
  induction 1 as [|x l Hx Hl IH]; [done|]. intros _.
  destruct l as [|y l]; [by apply split_slash_free|].
  change (join_slash (x :: y :: l)) with (x +:+ "/" +:+ join_slash (y :: l)).
  rewrite split_slash_app, split_slash_free by done. by rewrite IH.
Qed.

Lemma is_name_slash_free (x : string) : is_name x = true -> slash_free x = true.
Proof. unfold is_name. by intros [[[? _]%andb_prop _]%andb_prop _]%andb_prop. Qed.

Lemma is_name_eqb (x : string) :
  is_name x = true ->
  String.eqb x "" = false ∧ String.eqb x "." = false ∧ String.eqb x ".." = false.
Proof.
  unfold is_name.
  intros [[[_ H1]%andb_prop H2]%andb_prop H3]%andb_prop.
  by rewrite !negb_true_iff in H1, H2, H3.
Qed.

Lemma clean_step_name (rooted : bool) (out : list string) (x : string) :
  is_name x = true -> clean_step rooted out x = x :: out.
Proof.
  intros (H1 & H2 & H3)%is_name_eqb. unfold clean_step. by rewrite H1, H2, H3.
Qed.

Lemma fold_names (rooted : bool) (names out : list string) :
  Forall (fun x => is_name x = true) names ->
  fold_left (clean_step rooted) names out = rev names ++ out.
Proof.
  intros Hn. revert out. induction Hn as [|x names Hx _ IH]; intros out; [done|].
  cbn [fold_left rev]. rewrite clean_step_name by done.
  by rewrite IH, <- app_assoc.
Qed.

(** The scan of a path that does not climb: what was written before is
    kept, and what is written on top of it are plain names. *)
Lemma fold_stays_below (rooted : bool) (elems : list string) :
  forall top base : list string,
  Forall (fun x => slash_free x = true) elems ->
  Forall (fun x => is_name x = true) top ->
  stays_below (length top) elems = true ->
  exists top',
    Forall (fun x => is_name x = true) top'
    ∧ fold_left (clean_step rooted) elems (top ++ base) = top' ++ base.
Proof.
  induction elems as [|x elems IH]; intros top base Hfree Htop Hstay.
  - by exists top.
  - apply Forall_cons in Hfree as [Hx Hfree].
    cbn [fold_left]. cbn [stays_below] in Hstay. unfold clean_step.
    destruct (String.eqb x "") eqn:H1; [by apply IH|].
    destruct (String.eqb x ".") eqn:H2; [by apply IH|].
    cbn [orb] in Hstay.
    destruct (String.eqb x "..") eqn:H3.
    + destruct top as [|t top]; [done|]. cbn [length] in Hstay.
      apply Forall_cons in Htop as [Ht Htop].
      destruct (is_name_eqb t Ht) as (_ & _ & Ht3).
      cbn [app]. rewrite Ht3. by apply IH.
    + apply (IH (x :: top) base); [done| |done].
      constructor; [|done]. unfold is_name. by rewrite Hx, H1, H2, H3.
Qed.

Lemma clean_elems_no_climb (rooted : bool) (str : string) :
  stays_below 0 (split_slash str) = true ->
  Forall (fun x => is_name x = true) (clean_elems rooted (split_slash str)).
Proof.
  intros Hstay.
  destruct (fold_stays_below rooted (split_slash str) [] []
              (split_slash_elems_free str) (Forall_nil_2 _) Hstay)
    as (top & Htop & Hfold).
  unfold clean_elems. cbn [app] in Hfold. rewrite Hfold, app_nil_r.
  by apply Forall_rev.
Qed.

Lemma join_names_not_empty (x : string) (names : list string) :
  is_name x = true -> String.eqb (join_slash (x :: names)) "" = false.
Proof.
  intros (H1 & _)%is_name_eqb. apply String.eqb_neq in H1.
  apply String.eqb_neq. destruct x as [|c x]; [done|].
  destruct names; cbn; discriminate.
Qed.

(** [Clean] writes the names that the scan leaves. *)
Lemma Clean_names (str : string) :
  Forall (fun x => is_name x = true) (clean_elems (is_rooted str) (split_slash str)) ->
  Clean str
  = key_of_names (is_rooted str) (clean_elems (is_rooted str) (split_slash str)).
Proof.
  intros Hnames. unfold Clean, key_of_names.
  destruct (String.eqb str "") eqn:Hstr.
  - apply String.eqb_eq in Hstr as ->. reflexivity.
  - destruct (is_rooted str); [done|].
    destruct (clean_elems false (split_slash str)) as [|x names]; [done|].
    apply Forall_cons in Hnames as [Hx _].
    by rewrite join_names_not_empty.
Qed.

End PathElements.

Section PathNormaliser.
Import GoPath.

(** A path that does not climb is cleaned to plain names. *)
Lemma Clean_no_climb (str : string) :
  stays_below 0 (split_slash str) = true ->
  exists names,
    Forall (fun x => is_name x = true) names
    ∧ Clean str = key_of_names (is_rooted str) names.
Proof.
  intros Hstay. exists (clean_elems (is_rooted str) (split_slash str)).
  pose proof (clean_elems_no_climb (is_rooted str) str Hstay) as Hnames.
  split; [done | by apply Clean_names].
Qed.

Lemma Clean_ext (x y : string) :
  x ≠ "" -> y ≠ "" -> is_rooted x = is_rooted y ->
  clean_elems (is_rooted x) (split_slash x)
    = clean_elems (is_rooted x) (split_slash y) ->
  Clean x = Clean y.
Proof.
  intros Hx%String.eqb_neq Hy%String.eqb_neq Hr He. unfold Clean.
  by rewrite Hx, Hy, <- Hr, He.
Qed.

Lemma ToSlash_not_empty (os : GOOS) (str : string) :
  str ≠ "" -> ToSlash os str ≠ "".
Proof. unfold ToSlash. destruct str; [done|]. by destruct (Ascii.eqb _ _). Qed.

(** Joining a root with a path that does not climb is joining it with
    plain names. *)
Lemma Join_no_climb (root p : string) :
  root ≠ "" ->
  stays_below 0 (split_slash p) = true ->
  exists names,
    Forall (fun x => is_name x = true) names
    ∧ Join [root; p] = Join (root :: names).
Proof.
  intros Hroot Hstay.
  assert (Hr : String.eqb root "" = false) by by apply String.eqb_neq.
  set (rooted := is_rooted root).
  destruct (fold_stays_below rooted (split_slash p) []
              (fold_left (clean_step rooted) (split_slash root) [])
              (split_slash_elems_free p) (Forall_nil_2 _) Hstay)
    as (top & Htop & Hfold).
  cbn [app] in Hfold.
  exists (rev top). split; [by apply Forall_rev|].
  cbn [Join]. rewrite Hr.
  change (join_slash [root; p]) with (root +:+ "/" +:+ p).
  assert (Hrooted : forall b, is_rooted (root +:+ "/" +:+ b) = rooted).
  { intros b. by destruct root. }
  assert (Hne : forall b, root +:+ "/" +:+ b ≠ "") by (intros b; by destruct root).
  destruct (rev top) as [|n names] eqn:Hrev.
  - apply (f_equal (@rev string)) in Hrev. rewrite rev_involutive in Hrev.
    cbn in Hrev. subst top.
    apply Clean_ext; [done | done | by rewrite Hrooted |].
    rewrite Hrooted. unfold clean_elems.
    by rewrite split_slash_app, fold_left_app, Hfold.
  - change (join_slash (root :: n :: names))
      with (root +:+ "/" +:+ join_slash (n :: names)).
    apply Clean_ext; [done | done | by rewrite !Hrooted |].
    rewrite Hrooted. unfold clean_elems.
    assert (Hn : Forall (fun x => is_name x = true) (n :: names)).
    { rewrite <- Hrev. by apply Forall_rev. }
    rewrite !split_slash_app, !fold_left_app, Hfold.
    rewrite split_join_slash; [|by eapply Forall_impl;
      [exact Hn | apply is_name_slash_free]|done].
    rewrite (fold_names rooted (n :: names)) by done.
    by rewrite <- Hrev, rev_involutive.
Qed.

Lemma filepath_Join_no_climb (os : GOOS) (root p : string) :
  root ≠ "" -> no_climb os p = true ->
  exists names,
    Forall (fun x => is_name x = true) names
    ∧ filepath_Join os [root; p] = FromSlash os (Join (ToSlash os root :: names)).
Proof.
  intros Hroot Hstay.
  destruct (Join_no_climb (ToSlash os root) (ToSlash os p)
              (ToSlash_not_empty os root Hroot) Hstay) as (names & Hn & HJ).
  exists names. split; [done|]. unfold filepath_Join. cbn [map]. by rewrite HJ.
Qed.

End PathNormaliser.

(** ** The keys of the requests *)

Lemma request_calls {W call A} (f : W -> A * W) (record : A -> call)
    (st : Remote W call) :
  calls (request f record st).2 = calls st ++ [record (f (service st)).1].
Proof. by rewrite request_run. Qed.

(** A request followed by code that only looks at its result. *)
Lemma request_then_calls {W call A B} (f : W -> A * W) (record : A -> call)
    (k : A -> State (Remote W call) B) (st : Remote W call) :
  (forall a st', (k a st').2 = st') ->
  calls ((request f record ≫= k) st).2 = calls st ++ [record (f (service st)).1].
Proof. intros Hk. by rewrite bind_run, Hk, request_calls. Qed.

Section RequestKeys.
Context {W : Type}.
Variable env : Env.

Lemma S3_run_keys (sdk : S3.SDK W) (s : S3.storageS3) (c : StorageCall)
    (st : Remote W S3.call) :
  S3_normalises c = true ->
  exists new,
    calls (S3_run env sdk s c st) = calls st ++ new
    ∧ Forall (cleaned_of env c) (concat (map S3_call_keys new)).
Proof.
  intros Hc. destruct c as [p|p source v|ps|p r|p e r|src dst|p|p|p|p v|p];
    try discriminate Hc; unfold S3_run, exec.
  - eexists [_]. split; [apply request_calls|].
    repeat constructor. exists p. split; [by left | done].
  - destruct (Put_trace env sdk s p source v st)
      as (new & Hcalls & _ & _ & _ & _ & _ & Hkeys).
    exists new. split; [done|].
    eapply Forall_impl; [exact Hkeys|]. intros k <-.
    exists p. split; [by left | done].
  - unfold S3.Delete. destruct ps as [|p0 [|p1 ps]].
    + exists []. by rewrite app_nil_r.
    + eexists [_]. split; [apply request_calls|].
      repeat constructor. exists p0. split; [by left | done].
    + eexists [_]. split; [apply request_calls|].
      cbn [map concat S3_call_keys]. rewrite app_nil_r.
      change (Forall (cleaned_of env (CallDelete (p0 :: p1 :: ps)))
                (map (S3.cleanS3ObjectPath env) (p0 :: p1 :: ps))).
      apply Forall_fmap, Forall_forall. intros p Hp. by exists p.
  - exists []. rewrite app_nil_r. unfold S3.URL.
    by destruct (String.eqb p "").
  - eexists [_]. split.
    + unfold S3.Copy. apply request_then_calls. by intros [?|?] ?.
    + repeat constructor.
      * exists dst. split; [right; by left | done].
      * exists src. split; [by left | done].
  - eexists [_]. split.
    + unfold S3.Size. apply request_then_calls. by intros [?|?] ?.
    + repeat constructor. exists p. split; [by left | done].
  - eexists [_]. split.
    + unfold S3.getLastModified. apply request_then_calls. by intros [?|?] ?.
    + repeat constructor. exists p. split; [by left | done].
  - eexists [_]. split.
    + unfold S3.Exist. apply request_then_calls. by intros [?|?] ?.
    + repeat constructor. exists p. split; [by left | done].
  - unfold S3.SetVisibility. destruct (S3.getS3ACLOrError v) as [acl|err].
    + eexists [_]. split; [apply request_calls|].
      repeat constructor. exists p. split; [by left | done].
    + exists []. by rewrite app_nil_r.
Qed.

Lemma OSS_run_keys (sdk : OSS.SDK W) (s : OSS.storageAlibabaOSS) (c : StorageCall)
    (st : Remote W OSS.call) :
  OSS_normalises c = true ->
  exists new,
    calls (OSS_run env sdk s c st) = calls st ++ new
    ∧ Forall (cleaned_of env c) (concat (map OSS_call_keys new)).
Proof.
  intros Hc. destruct c as [p|p source v|ps|p r|p e r|src dst|p|p|p|p v|p];
    try discriminate Hc; unfold OSS_run, exec.
  - eexists [_]. split; [apply request_calls|].
    repeat constructor. exists p. split; [by left | done].
  - unfold OSS.Put. destruct (OSS.getACLOSSOrError v) as [acl [err|]].
    + exists []. by rewrite app_nil_r.
    + eexists [_]. split; [apply request_calls|].
      repeat constructor. exists p. split; [by left | done].
  - unfold OSS.Delete. destruct ps as [|p0 [|p1 ps]]; [| |discriminate Hc].
    + exists []. by rewrite app_nil_r.
    + eexists [_]. split; [apply request_calls|].
      repeat constructor. exists p0. split; [by left | done].
  - exists []. rewrite app_nil_r. unfold OSS.URL.
    by destruct (String.eqb p "").
  - eexists [_]. split; [apply request_calls|].
    repeat constructor.
    + exists src. split; [by left | done].
    + exists dst. split; [right; by left | done].
  - eexists [_]. split.
    + unfold OSS.Size. apply request_then_calls. by intros [?|?] ?.
    + repeat constructor. exists p. split; [by left | done].
  - eexists [_]. split.
    + unfold OSS.getLastModified. apply request_then_calls.
      intros [h|?] ?; [|done]. by destruct (OSS.http_ParseTime _ _ _).
    + repeat constructor. exists p. split; [by left | done].
  - eexists [_]. split; [apply request_calls|].
    repeat constructor. exists p. split; [by left | done].
  - unfold OSS.SetVisibility. destruct (OSS.getACLOSSOrError v) as [acl [err|]].
    + exists []. by rewrite app_nil_r.
    + eexists [_]. split; [apply request_calls|].
      repeat constructor. exists p. split; [by left | done].
  - eexists [_]. split.
    + unfold OSS.GetVisibility. apply request_then_calls.
      intros [acl|?] ?; [|done].
      by repeat (destruct (String.eqb _ _)).
    + repeat constructor. exists p. split; [by left | done].
Qed.

End RequestKeys.




(** * Further properties of the backends *)

(** ** Files of the local backend *)

Lemma resolve_not_link (env : Env) (fuel : nat) (ns : gmap string dirent)
    (name : string) :
  (forall target, ns !! name ≠ Some (Lnk target)) ->
  OS.resolve env fuel ns name = Some name.
Proof.
  intros Hn. destruct fuel; cbn; destruct (ns !! name) as [[?|t]|] eqn:E;
    try done; by destruct (Hn t).
Qed.

Lemma io_Copy_run (file : nat) (source : Reader) :
  forall (fs : FS) (old : list byte),
  inodes fs !! file = Some old ->
  OS.io_Copy file source fs
  = (copy_error source,
     mkFS (names fs) (<[file := old ++ copied source]> (inodes fs)) (next_ino fs)).
Proof.
  induction source as [|[data er] source IH]; intros fs old Hold.
  - cbn. rewrite ret_run, app_nil_r, insert_id by done. by destruct fs.
  - cbn [OS.io_Copy copied copy_error]. rewrite bind_run.
    unfold OS.Write. cbn [fst snd]. rewrite Hold. cbn [default].
    destruct er as [e|].
    + rewrite app_nil_r. by destruct (decide (e = io_EOF)).
    + rewrite (IH _ (old ++ data)) by (cbn; apply lookup_insert_eq).
      cbn [names inodes next_ino]. by rewrite insert_insert_eq, app_assoc.
Qed.

Section LocalObjects.
Variable env : Env.
Variable s : Local.storageLocalFile.

(** The first half of [Put]: the content is stored under the private
    name; what follows depends on the visibility. *)
Lemma Put_stores (objectPath : string) (source : Reader)
    (visibility : ObjectVisibility) (fs : FS) :
  (forall target,
     names fs !! private_name env s objectPath ≠ Some (Lnk target)) ->
  exists file fs1,
    names fs1 !! private_name env s objectPath = Some (Reg file)
    ∧ inodes fs1 !! file = Some (copied source)
    ∧ (forall name, name ≠ private_name env s objectPath ->
         names fs1 !! name = names fs !! name)
    ∧ Local.Put env s objectPath source visibility fs
      = if String.eqb visibility ObjectPublicRead
           || String.eqb visibility ObjectPublicReadWrite
        then Local.makeObjectPublic env s objectPath fs1
        else (copy_error source, fs1).
Proof.
  intros Hnl. unfold Local.Put, Local.checkAndCreateParentDirectory,
    Local.mkdirIfNotExists.
  rewrite bind_run, ret_run. cbn [fst snd]. rewrite bind_run.
  unfold OS.Create at 1 2. fold (private_name env s objectPath).
  rewrite resolve_not_link by done.
  destruct (names fs !! private_name env s objectPath) as [[ino|t]|] eqn:E;
    [| by destruct (Hnl t) |]; cbn [fst snd]; rewrite bind_run.
  - rewrite (io_Copy_run ino source _ []) by (cbn; apply lookup_insert_eq).
    cbn [fst snd names inodes next_ino app]. rewrite insert_insert_eq.
    exists ino, (mkFS (names fs) (<[ino := copied source]> (inodes fs))
                   (next_ino fs)).
    split; [exact E|]. split; [cbn; apply lookup_insert_eq|].
    split; [done|]. by destruct (_ || _).
  - rewrite (io_Copy_run (next_ino fs) source _ []) by (cbn; apply lookup_insert_eq).
    cbn [fst snd names inodes next_ino app]. rewrite insert_insert_eq.
    exists (next_ino fs),
      (mkFS (<[private_name env s objectPath := Reg (next_ino fs)]> (names fs))
         (<[next_ino fs := copied source]> (inodes fs)) (S (next_ino fs))).
    split; [cbn; apply lookup_insert_eq|].
    split; [cbn; apply lookup_insert_eq|].
    split; [intros name Hname; cbn; by rewrite lookup_insert_ne|].
    by destruct (_ || _).
Qed.

(** [makeObjectPublic] on a key with a private entry: whatever was under
    the public name is replaced by a link to the private entry, a
    symbolic link to the private name on linux and a second name of the
    same file elsewhere. *)
Lemma makeObjectPublic_links (objectPath : string) (fs : FS) (d : dirent) :
  names fs !! private_name env s objectPath = Some d ->
  private_name env s objectPath ≠ public_name env s objectPath ->
  Local.makeObjectPublic env s objectPath fs
  = (None,
     mkFS (<[public_name env s objectPath :=
               match goos env with
               | linux => Lnk (private_name env s objectPath)
               | _ => d
               end]> (names fs))
       (inodes fs) (next_ino fs)).
Proof.
  intros Hpriv Hne. unfold Local.makeObjectPublic,
    Local.checkAndCreateParentDirectory, Local.mkdirIfNotExists.
  rewrite bind_run, ret_run. cbn [fst snd].
  rewrite bind_run, isFileExists_run. cbn [fst snd].
  assert (Hkpub : OS.key env
      (filepath_Join (goos env) [Local.publicBaseDir s; objectPath])
      = public_name env s objectPath) by reflexivity.
  assert (Hkpriv : OS.key env
      (filepath_Join (goos env) [Local.baseDir s; objectPath])
      = private_name env s objectPath) by reflexivity.
  assert (Habs : goos env = linux ->
      filepath_Abs linux (wd env)
        (ToSlash linux (filepath_Join (goos env) [Local.baseDir s; objectPath]))
      = private_name env s objectPath).
  { intros Hos. unfold private_name, OS.key. by rewrite Hos. }
  set (publicPath := filepath_Join (goos env) [Local.publicBaseDir s; objectPath])
    in *.
  set (filePath := filepath_Join (goos env) [Local.baseDir s; objectPath]) in *.
  set (pub := public_name env s objectPath) in *.
  set (priv := private_name env s objectPath) in *.
  clearbody publicPath filePath pub priv.
  rewrite Hkpub.
  assert (Hstep : exists fs1,
    (if bool_decide (is_Some (names fs !! pub))
     then OS.Remove env publicPath else mret None) fs = (None, fs1)
    ∧ names fs1 = delete pub (names fs)
    ∧ inodes fs1 = inodes fs ∧ next_ino fs1 = next_ino fs).
  { case_bool_decide as Hex.
    - rewrite Remove_present by (by rewrite Hkpub). rewrite Hkpub. by eexists.
    - exists fs. rewrite ret_run. split; [done|]. split; [|done].
      symmetry. apply delete_id. by apply eq_None_not_Some. }
  destruct Hstep as (fs1 & Hrun & Hn1 & Hi1 & Hx1).
  rewrite bind_run, Hrun. cbn [fst snd].
  assert (Hpub1 : names fs1 !! pub = None) by (rewrite Hn1; apply lookup_delete_eq).
  assert (Hpriv1 : names fs1 !! priv = Some d)
    by (rewrite Hn1, lookup_delete_ne; done).
  assert (Hins : forall d', <[pub := d']> (names fs1) = <[pub := d']> (names fs))
    by (intros d'; rewrite Hn1; apply insert_delete_eq).
  destruct (goos env) eqn:Hos.
  - rewrite bind_run. unfold OS.Symlink. rewrite Hkpub, Hpub1. cbn [fst snd].
    rewrite ret_run, Hins, Hi1, Hx1, Habs by done. reflexivity.
  - unfold OS.Link. by rewrite Hkpub, Hkpriv, Hpriv1, Hpub1, Hins, Hi1, Hx1.
  - unfold OS.Link. by rewrite Hkpub, Hkpriv, Hpriv1, Hpub1, Hins, Hi1, Hx1.
Qed.

Lemma Read_regular (objectPath : string) (fs : FS) (file : nat) :
  names fs !! private_name env s objectPath = Some (Reg file) ->
  Local.Read env s objectPath fs = (inl file, fs).
Proof.
  intros Hpriv. unfold Local.Read, OS.Open.
  fold (private_name env s objectPath).
  rewrite resolve_not_link by (intros t; by rewrite Hpriv).
  by rewrite Hpriv.
Qed.

End LocalObjects.

Section LocalRoundTrips.
Variable env : Env.
Variable s : Local.storageLocalFile.

Lemma Stat_regular (path : string) (fs : FS) (file : nat) :
  names fs !! OS.key env path = Some (Reg file) ->
  OS.Stat env path fs
  = (inl (OS.mkFileInfo
            (Z.of_nat (length (default [] (inodes fs !! file)))) false), fs).
Proof.
  intros Hn. unfold OS.Stat.
  rewrite resolve_not_link by (intros t; by rewrite Hn). by rewrite Hn.
Qed.

Lemma Exist_absent (objectPath : string) (fs : FS) :
  names fs !! private_name env s objectPath = None ->
  Local.Exist env s objectPath fs = (false, None, fs).
Proof.
  intros Hn. unfold Local.Exist. rewrite bind_run. unfold OS.Stat.
  fold (private_name env s objectPath).
  rewrite resolve_not_link by (intros t; by rewrite Hn). rewrite Hn.
  by destruct (OS.is_dir env (names fs) (private_name env s objectPath)).
Qed.




End LocalRoundTrips.





Section LocalRemoval.
Variable env : Env.
Variable s : Local.storageLocalFile.

Lemma remove_if_present (path : string) (fs : FS) :
  (ex ← Local.isFileExists env path;
   if ex : bool then OS.Remove env path else mret None) fs
  = (None, mkFS (delete (OS.key env path) (names fs)) (inodes fs) (next_ino fs)).
Proof.
  rewrite bind_run, isFileExists_run. cbn [fst snd].
  case_bool_decide as Hex; [by apply Remove_present|].
  rewrite ret_run. destruct fs as [ns ino nx]. cbn in *.
  do 2 f_equal. symmetry. apply delete_id. by apply eq_None_not_Some.
Qed.

Lemma Delete_run (objectPaths : list string) :
  forall fs,
  Local.Delete env s objectPaths fs
  = (None,
     mkFS (foldl (fun ns p =>
                    delete (private_name env s p) (delete (public_name env s p) ns))
             (names fs) objectPaths)
       (inodes fs) (next_ino fs)).
Proof.
  induction objectPaths as [|p ps IH]; intros fs; [by destruct fs|].
  cbn [Local.Delete foldl].
  rewrite bind_run, isFileExists_run. cbn [fst snd].
  pose proof (remove_if_present
    (filepath_Join (goos env) [Local.publicBaseDir s; p]) fs) as H1.
  rewrite bind_run, isFileExists_run in H1. cbn [fst snd] in H1.
  rewrite bind_run, H1. cbn [fst snd].
  rewrite bind_run, isFileExists_run. cbn [fst snd names].
  match goal with
  | |- context [bool_decide (is_Some (?ns !! OS.key env ?path))] =>
      pose proof (remove_if_present path (mkFS ns (inodes fs) (next_ino fs))) as H2
  end.
  rewrite bind_run, isFileExists_run in H2. cbn [fst snd names] in H2.
  rewrite bind_run, H2. cbn [fst snd]. by rewrite IH.
Qed.

Lemma deleted_stays_deleted (ps : list string) :
  forall (ns : gmap string dirent) (name : string),
  ns !! name = None ->
  foldl (fun ns p =>
           delete (private_name env s p) (delete (public_name env s p) ns))
    ns ps !! name = None.
Proof.
  induction ps as [|p ps IH]; intros ns name Hn; [done|].
  cbn [foldl]. apply IH.
  rewrite !lookup_delete. by repeat case_decide.
Qed.



(** X6: [SetVisibility] with a visibility that is none of the three
    returns the error and leaves the file system alone. *)
Theorem local_set_visibility_rejects_unknown_visibility
    (objectPath : string) (visibility : ObjectVisibility) (fs : FS) :
  visibility ≠ ObjectPrivate -> visibility ≠ ObjectPublicRead ->
  visibility ≠ ObjectPublicReadWrite ->
  Local.SetVisibility env s objectPath visibility fs
  = (Some (fmt_Errorf
             ("[local-storage] err invalid object visibility: " +:+ visibility)),
     fs).
Proof.
  intros H1%String.eqb_neq H2%String.eqb_neq H3%String.eqb_neq.
  unfold Local.SetVisibility. by rewrite H1, H2, H3.
Qed.


End LocalRemoval.

Lemma local_set_visibility_rejects_witness :
  Local.SetVisibility (test_env linux) getLocalStorage "a.txt" "public" empty_fs
  = (Some (fmt_Errorf
             ("[local-storage] err invalid object visibility: " +:+ "public")),
     empty_fs).
Proof.
  apply (local_set_visibility_rejects_unknown_visibility (test_env linux)
           getLocalStorage "a.txt" "public" empty_fs); discriminate.
Defined.


Section LocalCopy.
Variable env : Env.
Variable s : Local.storageLocalFile.

Lemma Open_regular (path : string) (fs : FS) (file : nat) :
  names fs !! OS.key env path = Some (Reg file) ->
  OS.Open env path fs = (inl file, fs).
Proof.
  intros Hn. unfold OS.Open.
  rewrite resolve_not_link by (intros t; by rewrite Hn). by rewrite Hn.
Qed.


(** X9: [Copy] of an object onto itself returns nil and leaves it empty:
    the destination is truncated before the source is read. *)
Theorem local_copy_onto_itself_truncates
    (objectPath : string) (fs : FS) (file : nat) :
  names fs !! private_name env s objectPath = Some (Reg file) ->
  let r := Local.Copy env s objectPath objectPath fs in
  r.1 = None
  ∧ names r.2 = names fs
  ∧ inodes r.2 !! file = Some []
  ∧ Local.Size env s objectPath r.2 = (0%Z, None, r.2).
Proof.
  intros Hsrc r.
  assert (Hrun : r = (None, mkFS (names fs) (<[file := []]> (inodes fs)) (next_ino fs))).
  { subst r. unfold Local.Copy, Local.checkAndCreateParentDirectory,
      Local.mkdirIfNotExists.
    rewrite bind_run, ret_run. cbn [fst snd].
    rewrite bind_run, (Open_regular _ fs file) by exact Hsrc. cbn [fst snd].
    rewrite bind_run, ret_run. cbn [fst snd]. rewrite bind_run.
    unfold OS.Create. fold (private_name env s objectPath).
    rewrite resolve_not_link by (intros t; by rewrite Hsrc).
    rewrite Hsrc. cbn [fst snd].
    rewrite bind_run. unfold OS.ReadAll. cbn [fst snd inodes].
    rewrite lookup_insert_eq. cbn [default].
    rewrite (io_Copy_run _ _ _ []) by (cbn; apply lookup_insert_eq).
    cbn [names inodes next_ino copied copy_error app].
    by rewrite insert_insert_eq. }
  rewrite Hrun. cbn [fst snd names inodes].
  split; [done|]. split; [done|]. split; [apply lookup_insert_eq|].
  unfold Local.Size. rewrite bind_run.
  rewrite (Stat_regular env _ _ file) by exact Hsrc.
  cbn [fst snd inodes]. by rewrite lookup_insert_eq.
Qed.


End LocalCopy.


Lemma local_copy_onto_itself_witness :
  let env := test_env linux in
  let s := getLocalStorage in
  let fs := (Local.Put env s "a.txt" [(bytes_of "Hello", None)] ObjectPrivate
               empty_fs).2 in
  let r := Local.Copy env s "a.txt" "a.txt" fs in
  r.1 = None
  ∧ names r.2 = names fs
  ∧ inodes r.2 !! 0 = Some []
  ∧ Local.Size env s "a.txt" r.2 = (0%Z, None, r.2).
Proof.
  intros env s fs.
  apply (local_copy_onto_itself_truncates env s "a.txt" fs 0).
  vm_compute. reflexivity.
Defined.


(** ** Requests of the S3 backend *)

Lemma creates_app (cs1 cs2 : list S3.call) :
  creates (cs1 ++ cs2) = creates cs1 ++ creates cs2.
Proof.
  induction cs1 as [|c cs1 IH]; [done|].
  destruct c as [|? [?|?] | | | | | | | | | | |]; cbn; by rewrite ?IH.
Qed.

Lemma sleeps_app (cs1 cs2 : list S3.call) :
  sleeps (cs1 ++ cs2) = sleeps cs1 ++ sleeps cs2.
Proof.
  induction cs1 as [|c cs1 IH]; [done|]. destruct c; cbn; by rewrite ?IH.
Qed.

Section S3Requests.
Context {W : Type}.
Variable env : Env.
Variable sdk : S3.SDK W.
Variable s : S3.storageS3.

Lemma uploadPart_attempts_counts (left : nat) (input : S3.UploadPartInput)
    (partNumber : Z) (st : Remote W S3.call) :
  exists new,
    calls (S3.uploadPart_attempts sdk left input partNumber st).2 = calls st ++ new
    ∧ creates new = []
    ∧ length (uploads new) <= left
    ∧ (left ≠ 0 ->
       1 <= length (uploads new)
       ∧ sleeps new = replicate (length (uploads new) - 1) (time.Second * 2)%Z).
Proof.
  revert st. induction left as [|left IH]; intros st.
  - exists []. cbn. by rewrite app_nil_r.
  - cbn [S3.uploadPart_attempts]. rewrite bind_run, request_run. cbn [fst snd].
    destruct (S3.sdk_UploadPart W sdk input (service st)) as [[etag|err] w'].
    + exists [S3.UploadPart input (inl etag)]. cbn.
      repeat split; first [done | lia].
    + cbn [fst snd]. destruct left as [|left'].
      * exists [S3.UploadPart input (inr err)]. cbn.
        repeat split; first [done | lia].
      * rewrite bind_run, request_run. cbn [fst snd service calls].
        set (st1 := mkRemote w'
                      ((calls st ++ [S3.UploadPart input (inr err)])
                       ++ [S3.Sleep (time.Second * 2)])).
        destruct (IH st1) as (new & Hcalls & Hcr & Hlen & Hsl).
        destruct Hsl as [Hone Hsl]; [done|].
        exists ([S3.UploadPart input (inr err); S3.Sleep (time.Second * 2)] ++ new).
        rewrite Hcalls. subst st1. cbn [calls]. rewrite <- !app_assoc.
        cbn [app creates uploads sleeps length].
        split; [done|]. split; [done|]. split; [lia|]. intros _.
        split; [lia|]. rewrite Hsl.
        destruct (length (uploads new)) as [|n]; [lia|].
        cbn. by rewrite Nat.sub_0_r.
Qed.

(** X11: [uploadMultipart] submits the part at least once and at most
    three times, every time with the same bytes and number, pauses two
    seconds between two submissions and not after the last, and returns
    either the descriptor of the accepted part or an error, never
    neither. *)
Theorem s3_upload_multipart_submits_at_most_three_times
    (resp : S3.CreateMultipartUploadOutput) (data : list byte) (partNumber : Z)
    (st : Remote W S3.call) :
  let r := S3.uploadMultipart sdk resp data partNumber st in
  exists new,
    calls r.2 = calls st ++ new
    ∧ 1 <= length (uploads new) <= 3
    ∧ Forall (eq (part_input resp data partNumber)) (uploads new)
    ∧ sleeps new = replicate (length (uploads new) - 1) (2 * time.Second)%Z
    ∧ match r.1 with
      | (Some part, None) =>
          uploads_ok new = [(part_input resp data partNumber, S3.ETag part)]
          ∧ S3.PartNumber part = partNumber
      | (None, Some _) => uploads_ok new = [] ∧ length (uploads new) = 3
      | _ => False
      end.
Proof.
  intros r. subst r. unfold S3.uploadMultipart.
  fold (part_input resp data partNumber).
  destruct (uploadPart_attempts_counts S3.maxRetry
              (part_input resp data partNumber) partNumber st)
    as (new & Hcalls & _ & Hlen & Hsl).
  destruct (uploadPart_attempts_trace sdk S3.maxRetry
              (part_input resp data partNumber) partNumber st)
    as (new' & Hcalls' & Hsame & _ & _ & _ & Hres).
  assert (new' = new) as ->.
  { rewrite Hcalls in Hcalls'. by apply app_inv_head in Hcalls'. }
  destruct Hsl as [Hone Hsl]; [done|].
  exists new. split; [done|]. split; [unfold S3.maxRetry in Hlen; lia|].
  split; [done|]. split; [by rewrite Hsl, Z.mul_comm|].
  revert Hres Hcalls Hlen Hone.
  (* three refusals are needed for an error *)
  unfold S3.maxRetry. cbn [S3.uploadPart_attempts].
  rewrite bind_run, request_run. cbn [fst snd].
  destruct (S3.sdk_UploadPart W sdk _ (service st)) as [[etag|e1] w1];
    cbn [fst snd]; [by intros|].
  rewrite !bind_run, !request_run. cbn [fst snd service calls].
  destruct (S3.sdk_UploadPart W sdk _ w1) as [[etag|e2] w2];
    cbn [fst snd]; [by intros|].
  rewrite !bind_run, !request_run. cbn [fst snd service calls].
  destruct (S3.sdk_UploadPart W sdk _ w2) as [[etag|e3] w3];
    cbn [fst snd]; [by intros|].
  intros Hres Hcalls _ _. split; [done|].
  rewrite <- !app_assoc in Hcalls. apply app_inv_head in Hcalls.
  by rewrite <- Hcalls.
Qed.

Lemma Put_loop_counts (source : Reader) :
  forall (resp : S3.CreateMultipartUploadOutput) (partNumber : Z)
    (completed : list (option S3.CompletedPart)) (st : Remote W S3.call),
  exists new,
    calls (S3.Put_loop sdk source resp partNumber completed st).2 = calls st ++ new
    ∧ creates new = []
    ∧ length (uploads new) <= 3 * length (chunks_read source)
    ∧ length (sleeps new) <= 2 * length (chunks_read source).
Proof.
  induction source as [|[data er] source' IH]; intros resp pn completed st.
  - exists []. cbn. rewrite app_nil_r. repeat split; lia.
  - cbn [S3.Put_loop chunks_read].
    case_bool_decide as Herr.
    { rewrite bind_run. unfold S3.abortMultipartUpload. rewrite request_run.
      cbn [fst snd].
      destruct (S3.sdk_AbortMultipartUpload W sdk _ _ _ (service st)) as [a w'].
      exists [abort_call resp a]. cbn [fst snd].
      destruct a; cbn; repeat split; lia. }
    case_bool_decide as Hempty.
    { destruct data; [|cbn in Hempty; lia].
      exists []. rewrite ret_run. cbn. rewrite app_nil_r. repeat split; lia. }
    destruct data as [|b data]; [cbn in Hempty; lia|].
    rewrite bind_run. unfold S3.uploadMultipart.
    destruct (uploadPart_attempts_counts S3.maxRetry
                (part_input resp (b :: data) pn) pn st)
      as (new1 & Hcalls1 & Hcr1 & Hlen1 & Hsl1).
    destruct Hsl1 as [Hone1 Hsl1]; [done|].
    assert (Hs1 : length (sleeps new1) <= 2).
    { rewrite Hsl1, length_replicate. unfold S3.maxRetry in Hlen1. lia. }
    unfold S3.maxRetry in Hlen1. fold (part_input resp (b :: data) pn).
    destruct (S3.uploadPart_attempts sdk S3.maxRetry
                (part_input resp (b :: data) pn) pn st) as [[c err] st1].
    cbn [fst snd length] in *.
    destruct err as [e|].
    + rewrite bind_run. unfold S3.abortMultipartUpload. rewrite request_run.
      cbn [fst snd].
      destruct (S3.sdk_AbortMultipartUpload W sdk _ _ _ (service st1)) as [a w'].
      exists (new1 ++ [abort_call resp a]).
      rewrite creates_app, uploads_app, sleeps_app, !length_app, Hcr1.
      destruct a; cbn [mret State_ret fst snd calls];
        rewrite Hcalls1, <- app_assoc; cbn; repeat split; lia.
    + destruct (IH resp (int64 (pn + 1)) (completed ++ [c]) st1)
        as (new2 & Hcalls2 & Hcr2 & Hlen2 & Hs2).
      exists (new1 ++ new2).
      rewrite creates_app, uploads_app, sleeps_app, !length_app, Hcr1, Hcr2.
      rewrite Hcalls2, Hcalls1, <- app_assoc. repeat split; lia.
Qed.

(** X12: a [Put] opens at most one session. When none was opened it has
    sent no part, abort or completion request and returns an error. A
    session that was opened is ended by exactly one request, the
    completion or the abort of that session, never both; an abort goes
    with an error. One chunk costs at most three submissions and two
    pauses. *)
Theorem s3_put_ends_the_session_it_opened
    (objectPath : string) (source : Reader) (visibility : ObjectVisibility)
    (st : Remote W S3.call) :
  let r := S3.Put env sdk s objectPath source visibility st in
  exists new,
    calls r.2 = calls st ++ new
    ∧ (creates new = [] ->
       r.1 ≠ None ∧ uploads new = [] ∧ aborts new = [] ∧ completions new = [])
    ∧ (forall resp rest, creates new = resp :: rest ->
       rest = []
       ∧ ((aborts new = [] ∧ length (completions new) = 1)
          ∨ (aborts new = [S3.UploadId resp] ∧ completions new = []
             ∧ r.1 ≠ None)))
    ∧ length (uploads new) <= 3 * length (chunks_read source)
    ∧ length (sleeps new) <= 2 * length (chunks_read source).
Proof.
  intros r. subst r. unfold S3.Put.
  destruct (S3.getS3ACLOrError visibility) as [acl|err].
  2:{ exists []. rewrite ret_run. cbn. rewrite app_nil_r.
      repeat split; first [done | lia]. }
  rewrite bind_run. cbn [fst snd].
  set (input := S3.mkCreateInput acl (S3.bucketName s)
                  (S3.cleanS3ObjectPath env objectPath) _).
  rewrite bind_run, request_run. cbn [fst snd].
  destruct (S3.sdk_CreateMultipartUpload W sdk input (service st))
    as [[createdResp|err] w1]; cbn [fst snd].
  2:{ exists [S3.CreateMultipartUpload input (inr err)]. rewrite ret_run. cbn.
      repeat split; first [done | lia]. }
  set (created := S3.CreateMultipartUpload input (inl createdResp)).
  set (st1 := mkRemote w1 (calls st ++ [created])).
  rewrite bind_run.
  destruct (Put_loop_trace sdk source createdResp 1 [] st1)
    as (new & Hcalls & _ & _ & Hcomp & _ & _ & Hres).
  destruct (Put_loop_counts source createdResp 1 [] st1)
    as (new' & Hcalls' & Hcr & Hup & Hsl).
  assert (new' = new) as ->.
  { rewrite Hcalls in Hcalls'. by apply app_inv_head in Hcalls'. }
  destruct (S3.Put_loop sdk source createdResp 1 [] st1) as [[parts|e] st2];
    cbn [fst snd] in *.
  - destruct Hres as (_ & _ & Hab).
    rewrite bind_run, request_run. cbn [fst snd].
    set (cinput := S3.mkCompleteInput _ _ _ _).
    destruct (S3.sdk_CompleteMultipartUpload W sdk cinput (service st2))
      as [out w3]; cbn [fst snd].
    exists ([created] ++ new ++ [S3.CompleteMultipartUpload cinput out]).
    assert (Hc : forall (e : option error),
      calls ((mret e : State (Remote W S3.call) _)
               (mkRemote w3 (calls st2 ++ [S3.CompleteMultipartUpload cinput out]))).2
      = calls st ++ [created] ++ new ++ [S3.CompleteMultipartUpload cinput out]).
    { intros e. rewrite ret_run. cbn [snd calls]. rewrite Hcalls. subst st1.
      cbn [calls]. by rewrite <- !app_assoc. }
    rewrite !creates_app, !aborts_app, !completions_app, !uploads_app,
      !sleeps_app, Hcr, Hab, Hcomp.
    cbn [creates aborts completions uploads sleeps created app length].
    rewrite !app_nil_r.
    destruct out as [o|err]; rewrite Hc;
      (split; [done|]; split; [done|]; split;
       [intros resp rest [= <- <-]; split; [done|]; by left|]; split; lia).
  - destruct Hres as [He Hab].
    exists ([created] ++ new). rewrite ret_run. cbn [fst snd].
    rewrite Hcalls. subst st1. cbn [calls]. rewrite <- app_assoc.
    rewrite !creates_app, !aborts_app, !completions_app, !uploads_app,
      !sleeps_app, Hcr, Hab, Hcomp.
    cbn [creates aborts completions uploads sleeps created app length].
    split; [done|]. split; [done|].
    split; [intros resp rest [= <- <-]; split; [done|]; by right|].
    split; lia.
Qed.

(** X13: a [Put] from a stream whose first read is empty, or that has no
    read at all, sends no part: the session it opens is completed with an
    empty list of parts. *)
Theorem s3_put_of_an_empty_stream_completes_without_parts
    (objectPath : string) (source : Reader) (visibility : ObjectVisibility)
    (st : Remote W S3.call) :
  (source = []
   ∨ exists er rest, source = ([], er) :: rest ∧ (er = None ∨ er = Some io_EOF)) ->
  let r := S3.Put env sdk s objectPath source visibility st in
  exists new,
    calls r.2 = calls st ++ new
    ∧ uploads new = [] ∧ aborts new = []
    ∧ (creates new ≠ [] -> completions new = [[]]).
Proof.
  intros Hsrc r. subst r.
  assert (Hloop : forall resp pn completed (st' : Remote W S3.call),
    S3.Put_loop sdk source resp pn completed st' = (inl completed, st')).
  { intros resp pn completed st'.
    destruct Hsrc as [-> | (er & rest & -> & Her)]; [done|].
    cbn [S3.Put_loop].
    rewrite bool_decide_eq_false_2 by (intros [? ?]; destruct Her; congruence).
    by rewrite bool_decide_eq_true_2 by (cbn; lia). }
  unfold S3.Put.
  destruct (S3.getS3ACLOrError visibility) as [acl|err].
  2:{ exists []. rewrite ret_run. cbn. by rewrite app_nil_r. }
  rewrite bind_run. cbn [fst snd].
  set (input := S3.mkCreateInput acl (S3.bucketName s)
                  (S3.cleanS3ObjectPath env objectPath) _).
  rewrite bind_run, request_run. cbn [fst snd].
  destruct (S3.sdk_CreateMultipartUpload W sdk input (service st))
    as [[createdResp|err] w1]; cbn [fst snd].
  2:{ exists [S3.CreateMultipartUpload input (inr err)]. by rewrite ret_run. }
  rewrite bind_run, Hloop. cbn [fst snd].
  rewrite bind_run, request_run. cbn [fst snd service calls].
  set (cinput := S3.mkCompleteInput _ _ _ []).
  destruct (S3.sdk_CompleteMultipartUpload W sdk cinput w1) as [out w3].
  exists [S3.CreateMultipartUpload input (inl createdResp);
          S3.CompleteMultipartUpload cinput out].
  cbn [fst snd].
  destruct out; rewrite ret_run; cbn [snd calls]; rewrite <- app_assoc; done.
Qed.

End S3Requests.

Lemma s3_put_of_an_empty_stream_witness :
  let st := S3Mock.start (S3Mock.mkWorld [] None []) in
  let r := S3.Put (test_env linux) S3Mock.sdk s3_test "empty.bin"
             (bytesReader 4 []) ObjectPrivate st in
  exists new,
    calls r.2 = calls st ++ new
    ∧ uploads new = [] ∧ aborts new = []
    ∧ (creates new ≠ [] -> completions new = [[]]).
Proof.
  intros st.
  apply (s3_put_of_an_empty_stream_completes_without_parts (test_env linux)
           S3Mock.sdk s3_test "empty.bin" (bytesReader 4 []) ObjectPrivate st).
  right. eexists _, _. split; [reflexivity | by right].
Defined.

(** ** The normal form of keys *)

Section CleanNormalForm.
Import GoPath.

Lemma clean_step_shape (rooted : bool) (out : list string) (x : string) :
  slash_free x = true -> clean_shape rooted out ->
  clean_shape rooted (clean_step rooted out x).
Proof.
  intros Hx (names & n & -> & Hnames & Hroot). unfold clean_step.
  destruct (String.eqb x "") eqn:H1; [by exists names, n|].
  destruct (String.eqb x ".") eqn:H2; [by exists names, n|].
  destruct (String.eqb x "..") eqn:H3.
  - apply String.eqb_eq in H3 as ->.
    destruct names as [|t names].
    + destruct n as [|n]; cbn [app replicate].
      * destruct rooted; [by exists [], 0 | exists [], 1].
        split; [done|]. split; [constructor | done].
      * cbn. exists [], (S (S n)). split; [done|]. split; [constructor|].
        intros Hr. by specialize (Hroot Hr).
    + apply Forall_cons in Hnames as [Ht Hnames]. cbn [app].
      destruct (is_name_eqb t Ht) as (_ & _ & ->). by exists names, n.
  - exists (x :: names), n. split; [done|]. split; [|done].
    constructor; [|done]. unfold is_name. by rewrite Hx, H1, H2, H3.
Qed.

Lemma fold_shape (rooted : bool) (elems : list string) :
  forall out,
  Forall (fun x => slash_free x = true) elems ->
  clean_shape rooted out ->
  clean_shape rooted (fold_left (clean_step rooted) elems out).
Proof.
  induction elems as [|x elems IH]; intros out Hfree Hout; [done|].
  apply Forall_cons in Hfree as [Hx Hfree]. cbn [fold_left].
  apply IH; [done|]. by apply clean_step_shape.
Qed.

Lemma replicate_snoc {A} (n : nat) (x : A) :
  replicate n x ++ [x] = x :: replicate n x.
Proof. induction n as [|n IH]; [done|]. cbn. by rewrite IH. Qed.

Lemma rev_replicate {A} (n : nat) (x : A) : rev (replicate n x) = replicate n x.
Proof.
  induction n as [|n IH]; [done|]. cbn. by rewrite IH, replicate_snoc.
Qed.

Lemma clean_elems_shape (rooted : bool) (str : string) :
  exists n names,
    clean_elems rooted (split_slash str) = replicate n ".." ++ names
    ∧ Forall (fun x => is_name x = true) names
    ∧ (rooted = true -> n = 0).
Proof.
  destruct (fold_shape rooted (split_slash str) []
              (split_slash_elems_free str)) as (names & n & Hf & Hn & Hr).
  { exists [], 0. split; [done|]. split; [constructor | done]. }
  exists n, (rev names). unfold clean_elems.
  rewrite Hf, rev_app_distr, rev_replicate.
  split; [done|]. split; [by apply Forall_rev | done].
Qed.

Lemma fold_dotdots (n : nat) :
  forall m,
  fold_left (clean_step false) (replicate n "..") (replicate m "..")
  = replicate (n + m) "..".
Proof.
  induction n as [|n IH]; intros m; [done|].
  cbn [replicate fold_left].
  replace (clean_step false (replicate m "..") "..") with (replicate (S m) "..")
    by (by destruct m).
  rewrite IH. f_equal. lia.
Qed.

(** The elements that [Clean] writes: not empty and without a slash. *)
Lemma written_elements (n : nat) (names : list string) :
  Forall (fun x => is_name x = true) names ->
  Forall (fun x => slash_free x = true ∧ String.eqb x "" = false)
    (replicate n ".." ++ names).
Proof.
  intros Hn. apply Forall_app. split.
  - apply Forall_replicate. by split.
  - eapply Forall_impl; [exact Hn|]. intros x Hx.
    split; [by apply is_name_slash_free | by apply is_name_eqb].
Qed.

Lemma join_written_head (x : string) (l : list string) :
  slash_free x = true -> String.eqb x "" = false ->
  is_rooted (join_slash (x :: l)) = false
  ∧ String.eqb (join_slash (x :: l)) "" = false.
Proof.
  intros Hfree Hx. destruct x as [|c x]; [done|].
  cbn in Hfree. apply andb_prop in Hfree as [Hc _].
  apply negb_true_iff in Hc.
  destruct l; cbn; by rewrite ?Hc.
Qed.

(** A relative key is a fixed point of [Clean]. *)
Lemma Clean_relative_key (n : nat) (names : list string) :
  Forall (fun x => is_name x = true) names ->
  replicate n ".." ++ names ≠ [] ->
  Clean (join_slash (replicate n ".." ++ names))
  = join_slash (replicate n ".." ++ names).
Proof.
  intros Hn Hne. pose proof (written_elements n names Hn) as Hw.
  destruct (replicate n ".." ++ names) as [|x l] eqn:E; [done|].
  apply Forall_cons in Hw as [[Hx1 Hx2] Hl].
  destruct (join_written_head x l Hx1 Hx2) as [Hr He].
  unfold Clean. rewrite He, Hr.
  rewrite split_join_slash;
    [| constructor; [done | eapply Forall_impl; [exact Hl | by intros ? [? ?]]]
     | done].
  unfold clean_elems. rewrite <- E, fold_left_app.
  pose proof (fold_dotdots n 0) as Hd. cbn [replicate] in Hd.
  rewrite Hd, fold_names by done.
  rewrite rev_app_distr, rev_involutive, rev_replicate, Nat.add_0_r, E.
  by rewrite He.
Qed.

(** A rooted key is a fixed point of [Clean]. *)
Lemma Clean_rooted_key (names : list string) :
  Forall (fun x => is_name x = true) names ->
  Clean ("/" +:+ join_slash names) = "/" +:+ join_slash names.
Proof.
  intros Hn. unfold Clean.
  change (String.eqb ("/" +:+ join_slash names) "") with false.
  change (is_rooted ("/" +:+ join_slash names)) with true. cbv iota.
  change (split_slash ("/" +:+ join_slash names))
    with ("" :: split_slash (join_slash names)).
  unfold clean_elems. cbn [fold_left].
  change (clean_step true [] "") with (@nil string).
  destruct names as [|x names]; [reflexivity|].
  rewrite split_join_slash;
    [| by eapply Forall_impl; [exact Hn | apply is_name_slash_free] | done].
  rewrite fold_names by done. by rewrite app_nil_r, rev_involutive.
Qed.

(** [path.Clean] is idempotent: a cleaned key is cleaned to itself. *)
Theorem clean_is_idempotent (str : string) : Clean (Clean str) = Clean str.
Proof.
  destruct (clean_elems_shape (is_rooted str) str) as (n & names & HE & Hn & Hr).
  pose proof (written_elements n names Hn) as Hw.
  remember (Clean str) as key eqn:Hkey. unfold Clean in Hkey.
  destruct (String.eqb str ""); [by subst key|].
  rewrite HE in Hkey. destruct (is_rooted str).
  - rewrite (Hr eq_refl) in Hkey. cbn [replicate app] in Hkey. subst key.
    by apply Clean_rooted_key.
  - destruct (replicate n ".." ++ names) as [|x l] eqn:E; [by subst key|].
    apply Forall_cons in Hw as [[Hx1 Hx2] _].
    destruct (join_written_head x l Hx1 Hx2) as [_ He].
    rewrite He in Hkey. subst key.
    rewrite <- E. apply Clean_relative_key; [done|]. by rewrite E.
Qed.

End CleanNormalForm.

Section SlashForm.
Import GoPath.

Lemma slashed_cons (c : ascii) (str : string) :
  slashed (String c str) <-> Ascii.eqb c "\"%char = false ∧ slashed str.
Proof.
  unfold slashed. cbn [replace_char].
  destruct (Ascii.eqb c "\") eqn:Hc.
  - apply Ascii.eqb_eq in Hc as ->. split; [intros [=] | by intros [? _]].
  - split; [intros [= H]; by split | intros [_ H]; by rewrite H].
Qed.

Lemma slashed_replace (str : string) :
  slashed (replace_char "\"%char "/"%char str).
Proof.
  induction str as [|c str IH]; [done|].
  cbn [replace_char]. apply slashed_cons. split; [|done].
  by destruct (Ascii.eqb c "\") eqn:Hc.
Qed.

Lemma slashed_app (a b : string) : slashed a -> slashed b -> slashed (a +:+ b).
Proof.
  intros Ha Hb. induction a as [|c a IH]; [done|].
  apply slashed_cons in Ha as [Hc Ha].
  change (slashed (String c (a +:+ b))). apply slashed_cons. auto.
Qed.

Lemma slashed_split (str : string) :
  slashed str -> Forall slashed (split_slash str).
Proof.
  induction str as [|c str IH]; intros Hs; [by repeat constructor|].
  apply slashed_cons in Hs as [Hc Hs]. specialize (IH Hs).
  cbn [split_slash]. destruct (Ascii.eqb c "/"); [by constructor|].
  destruct (split_slash_cons str) as (x & r & E). rewrite E in *.
  apply Forall_cons in IH as [Hx Hr]. constructor; [|done].
  by apply slashed_cons.
Qed.

Lemma slashed_join (l : list string) : Forall slashed l -> slashed (join_slash l).
Proof.
  induction 1 as [|x l Hx Hl IH]; [done|].
  destruct l as [|y l]; [done|].
  change (join_slash (x :: y :: l)) with (x +:+ "/" +:+ join_slash (y :: l)).
  apply slashed_app; [done|]. by apply slashed_app.
Qed.

Lemma slashed_fold (rooted : bool) (elems : list string) :
  forall out, Forall slashed elems -> Forall slashed out ->
  Forall slashed (fold_left (clean_step rooted) elems out).
Proof.
  induction elems as [|x elems IH]; intros out He Ho; [done|].
  apply Forall_cons in He as [Hx He]. cbn [fold_left]. apply IH; [done|].
  unfold clean_step. repeat case_match; subst;
    repeat first [done | constructor
                 | match goal with
                   | H : Forall _ (_ :: _) |- _ => apply Forall_cons in H as [? ?]
                   end].
Qed.

Lemma slashed_Clean (str : string) : slashed str -> slashed (Clean str).
Proof.
  intros Hs. unfold Clean. destruct (String.eqb str ""); [done|].
  assert (Hj : slashed (join_slash (clean_elems (is_rooted str) (split_slash str)))).
  { apply slashed_join. unfold clean_elems. apply Forall_rev.
    apply slashed_fold; [by apply slashed_split | constructor]. }
  destruct (is_rooted str); [by apply slashed_app|].
  by destruct (String.eqb _ "").
Qed.

Lemma ToSlash_Clean_ToSlash (os : GOOS) (objectPath : string) :
  ToSlash os (Clean (ToSlash os objectPath)) = Clean (ToSlash os objectPath).
Proof.
  destruct os; [reflexivity | reflexivity |].
  change (slashed (Clean (replace_char "\"%char "/"%char objectPath))).
  apply slashed_Clean, slashed_replace.
Qed.

(** X14: the path normalisers of the remote backends are idempotent on
    every platform: normalising a key again gives the same key. *)
Theorem remote_object_path_cleaning_is_idempotent
    (env : Env) (objectPath : string) :
  S3.cleanS3ObjectPath env (S3.cleanS3ObjectPath env objectPath)
    = S3.cleanS3ObjectPath env objectPath
  ∧ OSS.cleanOSSObjectPath env (OSS.cleanOSSObjectPath env objectPath)
    = OSS.cleanOSSObjectPath env objectPath.
Proof.
  unfold S3.cleanS3ObjectPath, OSS.cleanOSSObjectPath.
  rewrite ToSlash_Clean_ToSlash. split; apply clean_is_idempotent.
Qed.

End SlashForm.

(** ** Visibility and ACLs of the remote backends *)

Lemma scanGrants_flags (grants : list S3.Grant) :
  forall hasRead hasWrite,
  S3.scanGrants grants hasRead hasWrite
  = (hasRead || existsb (grants_all_users S3.PermissionRead) grants,
     hasWrite || existsb (grants_all_users S3.PermissionWrite) grants).
Proof.
  induction grants as [|g grants IH]; intros r w.
  - cbn. by rewrite !orb_false_r.
  - cbn [S3.scanGrants existsb]. unfold grants_all_users at 1 3.
    destruct (String.eqb (S3.aws_StringValue (S3.GranteeURI g)) _); cbn [andb].
    + destruct (String.eqb (S3.aws_StringValue (S3.Permission g)) S3.PermissionRead)
        eqn:Hr.
      * apply String.eqb_eq in Hr. rewrite Hr, IH.
        change (String.eqb S3.PermissionRead S3.PermissionWrite) with false.
        cbn [orb]. by rewrite orb_true_r.
      * destruct (String.eqb (S3.aws_StringValue (S3.Permission g))
                    S3.PermissionWrite); rewrite IH; cbn [orb];
          by rewrite ?orb_true_r.
    + by rewrite IH.
Qed.

(** X15: [GetVisibility] of the S3 backend depends on the grants only
    through two facts, whether some grant gives READ to the all-users
    group and whether some grant gives it WRITE, whatever their order and
    number; both give [public-read-write], READ alone [public-read], and
    anything else the empty visibility without an error. It never
    returns [private]. *)
Theorem s3_get_visibility_reads_the_all_users_grants
    {W : Type} (sdk : S3.SDK W) (s : S3.storageS3) (objectPath : string)
    (st : Remote W S3.call) (grants : list S3.Grant) (w' : W) :
  S3.sdk_GetObjectAcl W sdk (S3.bucketName s) objectPath (service st)
    = (inl grants, w') ->
  let read := existsb (grants_all_users S3.PermissionRead) grants in
  let write := existsb (grants_all_users S3.PermissionWrite) grants in
  (S3.GetVisibility sdk s objectPath st).1
  = (if read && write then (ObjectPublicReadWrite, None)
     else if read then (ObjectPublicRead, None)
     else ("", None))
  ∧ (S3.GetVisibility sdk s objectPath st).1.1 ≠ ObjectPrivate.
Proof.
  intros Hacl read write. unfold S3.GetVisibility.
  rewrite bind_run, request_run, Hacl. cbn [fst snd].
  rewrite scanGrants_flags. cbn [orb]. fold read write.
  destruct read, write; cbn; by split.
Qed.

Lemma s3_get_visibility_witness :
  let allUsers := Some "http://acs.amazonaws.com/groups/global/AllUsers" in
  let grants := [S3.mkGrant allUsers (Some "WRITE");
                 S3.mkGrant (Some "owner") (Some "FULL_CONTROL");
                 S3.mkGrant allUsers (Some "READ")] in
  let st := S3Mock.start (S3Mock.mkWorld [] None grants) in
  let read := existsb (grants_all_users S3.PermissionRead) grants in
  let write := existsb (grants_all_users S3.PermissionWrite) grants in
  (S3.GetVisibility S3Mock.sdk s3_test "a.txt" st).1
  = (if read && write then (ObjectPublicReadWrite, None)
     else if read then (ObjectPublicRead, None)
     else ("", None))
  ∧ (S3.GetVisibility S3Mock.sdk s3_test "a.txt" st).1.1 ≠ ObjectPrivate.
Proof.
  intros allUsers grants st.
  apply (s3_get_visibility_reads_the_all_users_grants S3Mock.sdk s3_test "a.txt"
           st grants (S3Mock.mkWorld [] None grants)).
  reflexivity.
Defined.

(** X16: on the OSS backend the visibility written is the visibility
    read: [SetVisibility] with one of the three visibilities sends one
    request with an ACL, and [GetVisibility] of an object that the
    service reports with that ACL returns the visibility. *)
Theorem oss_visibility_round_trip
    {W : Type} (env : Env) (sdk : OSS.SDK W) (objectPath : string)
    (visibility : ObjectVisibility) (st st' : Remote W OSS.call) (w' : W) :
  visibility = ObjectPrivate ∨ visibility = ObjectPublicRead
    ∨ visibility = ObjectPublicReadWrite ->
  exists acl,
    calls (OSS.SetVisibility env sdk objectPath visibility st).2
      = calls st ++ [OSS.SetObjectACL (OSS.cleanOSSObjectPath env objectPath) acl
                       (OSS.SetVisibility env sdk objectPath visibility st).1]
    ∧ (OSS.sdk_GetObjectACL W sdk (OSS.cleanOSSObjectPath env objectPath)
         (service st') = (inl acl, w') ->
       (OSS.GetVisibility env sdk objectPath st').1 = (visibility, None)).
Proof.
  intros Hv.
  assert (Hacl : exists acl,
    OSS.getACLOSSOrError visibility = (acl, None)
    ∧ forall key (st0 : Remote W OSS.call),
        (mret (M := State (Remote W OSS.call))
           (if String.eqb acl OSS.ACLPrivate then (ObjectPrivate, None)
            else if String.eqb acl OSS.ACLPublicRead then (ObjectPublicRead, None)
            else if String.eqb acl OSS.ACLPublicReadWrite
            then (ObjectPublicReadWrite, None)
            else ("", Some (fmt_Errorf key))) st0).1 = (visibility, None)).
  { destruct Hv as [-> | [-> | ->]]; eexists; split; try reflexivity; done. }
  destruct Hacl as (acl & Hset & Hget). exists acl.
  unfold OSS.SetVisibility, OSS.GetVisibility. rewrite Hset. split.
  - by rewrite request_run.
  - intros Hr. rewrite bind_run, request_run, Hr. cbn [fst snd].
    specialize (Hget "invalid returned ACL value"
                  (mkRemote w' (calls st' ++
                     [OSS.GetObjectACL (OSS.cleanOSSObjectPath env objectPath)
                        (inl acl)]))).
    rewrite <- Hget. by repeat (destruct (String.eqb acl _)).
Qed.

Lemma oss_visibility_round_trip_witness :
  let env := test_env linux in
  let st := mkRemote "public-read-write" [] in
  exists acl,
    calls (OSS.SetVisibility env OSSMock.sdk "a.txt" ObjectPublicReadWrite st).2
      = calls st ++ [OSS.SetObjectACL (OSS.cleanOSSObjectPath env "a.txt") acl
                       (OSS.SetVisibility env OSSMock.sdk "a.txt"
                          ObjectPublicReadWrite st).1]
    ∧ (OSS.sdk_GetObjectACL string OSSMock.sdk (OSS.cleanOSSObjectPath env "a.txt")
         (service st) = (inl acl, "public-read-write") ->
       (OSS.GetVisibility env OSSMock.sdk "a.txt" st).1
       = (ObjectPublicReadWrite, None)).
Proof.
  intros env st.
  apply (oss_visibility_round_trip env OSSMock.sdk "a.txt" ObjectPublicReadWrite
           st st "public-read-write").
  right. by right.
Defined.

(** X17: [Delete] of two paths or more is one request on either
    backend; the S3 backend sends the cleaned keys in the order given,
    the OSS backend sends the paths as they were given. [Delete] of no
    path sends nothing. *)
Theorem remote_delete_of_several_paths_is_one_request
    {W1 W2 : Type} (env : Env) (sdk : S3.SDK W1) (osdk : OSS.SDK W2)
    (s : S3.storageS3) (p0 p1 : string) (ps : list string)
    (st : Remote W1 S3.call) (ost : Remote W2 OSS.call) :
  let paths := p0 :: p1 :: ps in
  calls (S3.Delete env sdk s paths st).2
    = calls st ++ [S3.DeleteObjects (S3.bucketName s)
                     (map (S3.cleanS3ObjectPath env) paths)
                     (S3.Delete env sdk s paths st).1]
  ∧ calls (OSS.Delete env osdk paths ost).2
    = calls ost ++ [OSS.DeleteObjects paths (OSS.Delete env osdk paths ost).1]
  ∧ S3.Delete env sdk s [] st = (None, st)
  ∧ OSS.Delete env osdk [] ost = (None, ost).
Proof.
  intros paths. unfold S3.Delete, OSS.Delete. subst paths. cbv iota.
  rewrite !request_run. by repeat split.
Qed.

(** ** The endpoint of the OSS backend *)

Lemma substring_all (str : string) :
  String.substring 0 (String.length str) str = str.
Proof. induction str as [|c str IH]; [done|]. cbn. by rewrite IH. Qed.

(** X18: [removeSchemeFromEndpoint] takes the scheme off an endpoint
    that starts with [https://] or [http://] and gives back what
    follows it. *)
Theorem remove_scheme_from_endpoint_strips_the_scheme (host : string) :
  OSS.removeSchemeFromEndpoint ("https://" +:+ host) = host
  ∧ OSS.removeSchemeFromEndpoint ("http://" +:+ host) = host.
Proof.
  unfold OSS.removeSchemeFromEndpoint, OSS.HasPrefix, OSS.string_from.
  assert (Hp : String.prefix "" host = true) by (by destruct host).
  split; simpl; change ("" +:+ host) with host; rewrite Hp, ?Nat.sub_0_r;
    apply substring_all.
Qed.

(** ** Temporary URLs of the local backend *)

(** X19: a local storage built without a signed-URL builder returns the
    "unsupported" error for every object that has a private entry; an
    object with an entry in neither tree gives the "not found" error of
    [TemporaryURL]; the empty path gives the empty string and no error.
    The file system is left alone. *)
Theorem local_temporary_url_without_builder
    (env : Env) (baseDir publicBaseDir publicBaseURL objectPath : string)
    (expireIn : Z) (storageResize : option StorageResize) (fs : FS) :
  let s := Local.NewLocalStorage baseDir publicBaseDir publicBaseURL None in
  objectPath ≠ "" ->
  (is_Some (names fs !! private_name env s objectPath) ->
   Local.TemporaryURL env s objectPath expireIn storageResize fs
   = ("", Some (fmt_Errorf "[local-storage] unsupported signed url builder"), fs))
  ∧ (names fs !! private_name env s objectPath = None ->
     names fs !! public_name env s objectPath = None ->
     Local.TemporaryURL env s objectPath expireIn storageResize fs
     = ("", Some (fmt_Errorf
                    "[local-storage] err file not found in given public/private path"),
        fs))
  ∧ Local.TemporaryURL env s "" expireIn storageResize fs = ("", None, fs).
Proof.
  intros s Hp%String.eqb_neq. unfold Local.TemporaryURL. rewrite Hp.
  split; [|split; [|reflexivity]].
  - intros Hpriv. rewrite bind_run, isFileExists_run. cbn [fst snd].
    fold (private_name env s objectPath). by rewrite bool_decide_eq_true_2.
  - intros Hpriv Hpub. rewrite bind_run, isFileExists_run. cbn [fst snd].
    fold (private_name env s objectPath). rewrite Hpriv.
    rewrite bool_decide_eq_false_2 by (intros [? ?]; discriminate).
    rewrite bind_run. unfold Local.URL. rewrite Hp.
    rewrite bind_run, isFileExists_run. cbn [fst snd].
    fold (public_name env s objectPath). rewrite Hpub.
    by rewrite bool_decide_eq_false_2 by (intros [? ?]; discriminate).
Qed.

Lemma local_temporary_url_witness :
  let env := test_env linux in
  let s := Local.NewLocalStorage "storage-test/private" "storage-test/public"
             "http://localhost:8000/files" None in
  let fs := (Local.Put env s "a.txt" [] ObjectPrivate empty_fs).2 in
  Local.TemporaryURL env s "a.txt" (5 * time.Minute) None fs
  = ("", Some (fmt_Errorf "[local-storage] unsupported signed url builder"), fs).
Proof.
  intros env s fs.
  destruct (local_temporary_url_without_builder env "storage-test/private"
              "storage-test/public" "http://localhost:8000/files" "a.txt"
              (5 * time.Minute) None fs) as (Hprivate & _).
  - discriminate.
  - apply Hprivate. vm_compute. eauto.
Defined.

(** ** The parts of a byte slice *)

Lemma chunks_of_bytesReader (size fuel : nat) :
  forall data : list byte,
  0 < size -> length data < fuel ->
  concat (chunks_read (bytesReader_reads size fuel data)) = data
  ∧ Forall (fun chunk : list byte => 0 < length chunk <= size)
      (chunks_read (bytesReader_reads size fuel data)).
Proof.
  induction fuel as [|fuel IH]; intros data Hsize Hlen; [lia|].
  destruct data as [|b data]; [by split; [|constructor]|].
  rewrite bytesReader_reads_cons by done.
  assert (Htake : take size (b :: data) ≠ []).
  { destruct size; [lia | done]. }
  rewrite chunks_read_cons by done.
  destruct (IH (drop size (b :: data)) Hsize) as [Hc Hf].
  { rewrite length_drop. cbn [length] in *. lia. }
  split.
  - cbn [concat]. by rewrite Hc, take_drop.
  - constructor; [|done]. rewrite length_take. cbn [length]. lia.
Qed.

(** X20: a [Put] of a byte slice that returns nil has sent parts whose
    bodies, put end to end in the order of their numbers, are the slice;
    no part is empty or longer than the buffer. *)
Theorem s3_put_parts_are_the_slice_in_order
    {W : Type} (env : Env) (sdk : S3.SDK W) (s : S3.storageS3)
    (objectPath : string) (size : nat) (data : list byte)
    (visibility : ObjectVisibility) (st : Remote W S3.call) :
  0 < size ->
  let r := S3.Put env sdk s objectPath (bytesReader size data) visibility st in
  r.1 = None ->
  exists new,
    calls r.2 = calls st ++ new
    ∧ concat (part_bodies (uploads_ok new)) = data
    ∧ Forall (fun body : list byte => 0 < length body <= size)
        (part_bodies (uploads_ok new))
    ∧ completions new = [map descriptor (uploads_ok new)].
Proof.
  intros Hsize r Hr.
  destruct (Put_trace env sdk s objectPath (bytesReader size data) visibility st)
    as (new & Hcalls & _ & _ & _ & _ & Hok & _).
  destruct (Hok Hr) as (Hcomp & Hbodies & _).
  destruct (chunks_of_bytesReader size (S (length data)) data Hsize) as [Hc Hf];
    [lia|].
  exists new. rewrite Hbodies. by repeat split.
Qed.

Lemma s3_put_parts_are_the_slice_witness :
  let st := S3Mock.start (S3Mock.mkWorld [] None []) in
  let data := bytes_of "0123456789" in
  let r := S3.Put (test_env linux) S3Mock.sdk s3_test "a.bin" (bytesReader 4 data)
             ObjectPrivate st in
  exists new,
    calls r.2 = calls st ++ new
    ∧ concat (part_bodies (uploads_ok new)) = data
    ∧ Forall (fun body : list byte => 0 < length body <= 4)
        (part_bodies (uploads_ok new))
    ∧ completions new = [map descriptor (uploads_ok new)].
Proof.
  intros st data.
  apply (s3_put_parts_are_the_slice_in_order (test_env linux) S3Mock.sdk s3_test
           "a.bin" 4 data ObjectPrivate st).
  - lia.
  - vm_compute. reflexivity.
Defined.

(** ** Making an object private *)

